(** * GPIO character-device queries (gpio.go): a shallow embedding

    The Go file [gpio.go] opens a [/dev/gpiochipN] device, issues the two
    kernel queries (chip info, v2 line info) through cgo and decodes the raw
    kernel structs into Go values.  This development embeds the decoding
    code, the flag rendering and the three kernel-facing operations, and
    proves the properties the specification states about them.

    Conventions.
    - A [w]-bit unsigned integer is a [Z] in [0, 2^w); conversions between
      integer types are written out ([to_unsigned], [to_signed]).
    - A C [char] array is a [list byte]; a Go [string] is a Stdlib [string].
    - The raw structs are laid out as on the little-endian Linux targets:
      the 8-byte attribute union is kept as its 8 bytes and its members are
      read from them.
    - A Go call ends in one of four ways, see [outcome]. *)

From Stdlib Require Import ZArith List Bool Lia.
From Stdlib.Strings Require Import String Ascii Byte.
From Stdlib Require HexadecimalString DecimalString HexadecimalN DecimalN.
Import ListNotations.
Local Open Scope string_scope.
Local Open Scope list_scope.
Local Open Scope Z_scope.

(* ------------------------------------------------------------------ *)
(** ** Fixed-width integers *)

Module GoInt.

(** Conversion to an unsigned type of [bits] bits. *)
Definition to_unsigned (bits : Z) (x : Z) : Z := x mod 2 ^ bits.

(** Conversion to a signed type of [bits] bits (two's complement). *)
Definition to_signed (bits : Z) (x : Z) : Z :=
  (x + 2 ^ (bits - 1)) mod 2 ^ bits - 2 ^ (bits - 1).

(** Go's [int] and [uintptr] are 32 or 64 bits wide, by target. *)
Inductive arch : Type := Arch32 | Arch64.

Definition word_bits (a : arch) : Z :=
  match a with Arch32 => 32 | Arch64 => 64 end.

Definition uint32 (x : Z) : Z := to_unsigned 32 x.
Definition uint64 (x : Z) : Z := to_unsigned 64 x.
Definition int (a : arch) (x : Z) : Z := to_signed (word_bits a) x.
Definition uintptr (a : arch) (x : Z) : Z := to_unsigned (word_bits a) x.
(** C's [int] is 32 bits on every Linux target. *)
Definition C_int (x : Z) : Z := to_signed 32 x.

End GoInt.
Import GoInt.

(* ------------------------------------------------------------------ *)
(** ** Line flags and their rendering *)

(** [type GPIOLineFlag uint64] *)
Abbreviation GPIOLineFlag := Z (only parsing).

Definition GPIOLineFlagUsed : GPIOLineFlag := Z.shiftl 1 0.
Definition GPIOLineFlagActiveLow : GPIOLineFlag := Z.shiftl 1 1.
Definition GPIOLineFlagInput : GPIOLineFlag := Z.shiftl 1 2.
Definition GPIOLineFlagOutput : GPIOLineFlag := Z.shiftl 1 3.
Definition GPIOLineFlagEdgeRising : GPIOLineFlag := Z.shiftl 1 4.
Definition GPIOLineFlagEdgeFalling : GPIOLineFlag := Z.shiftl 1 5.
Definition GPIOLineFlagOpenDrain : GPIOLineFlag := Z.shiftl 1 6.
Definition GPIOLineFlagOpenSource : GPIOLineFlag := Z.shiftl 1 7.
Definition GPIOLineFlagBiasPullUp : GPIOLineFlag := Z.shiftl 1 8.
Definition GPIOLineFlagBiasPullDown : GPIOLineFlag := Z.shiftl 1 9.
Definition GPIOLineFlagBiasDisabled : GPIOLineFlag := Z.shiftl 1 10.
Definition GPIOLineFlagEventClockRealtime : GPIOLineFlag := Z.shiftl 1 11.
Definition GPIOLineFlagEventClockHTE : GPIOLineFlag := Z.shiftl 1 12.

(** [strings.Join]: nothing for no element, the element itself for one,
    and otherwise the first element followed by separator and element for
    each of the others. *)
Fixpoint join_rest (elems : list string) (sep : string) : string :=
  match elems with
  | [] => ""
  | s :: rest => (sep ++ s ++ join_rest rest sep)%string
  end.

Definition strings_Join (elems : list string) (sep : string) : string :=
  match elems with
  | [] => ""
  | [s] => s
  | s :: rest => (s ++ join_rest rest sep)%string
  end.

(** [flag & F != 0] *)
Definition has_flag (flag F : GPIOLineFlag) : bool :=
  negb (Z.land flag F =? 0).

(** [func (flag GPIOLineFlag) String() string] *)
Definition GPIOLineFlag_String (flag : GPIOLineFlag) : string :=
  let flags : list string := [] in
  let flags := if has_flag flag GPIOLineFlagUsed
               then flags ++ ["Used"] else flags in
  let flags := if has_flag flag GPIOLineFlagActiveLow
               then flags ++ ["ActiveLow"] else flags in
  let flags := if has_flag flag GPIOLineFlagInput
               then flags ++ ["Input"] else flags in
  let flags := if has_flag flag GPIOLineFlagOutput
               then flags ++ ["Output"] else flags in
  let flags := if has_flag flag GPIOLineFlagEdgeRising
               then flags ++ ["EdgeRising"] else flags in
  let flags := if has_flag flag GPIOLineFlagEdgeFalling
               then flags ++ ["EdgeFalling"] else flags in
  let flags := if has_flag flag GPIOLineFlagOpenDrain
               then flags ++ ["OpenDrain"] else flags in
  let flags := if has_flag flag GPIOLineFlagOpenSource
               then flags ++ ["OpenSource"] else flags in
  let flags := if has_flag flag GPIOLineFlagBiasPullUp
               then flags ++ ["BiasPullUp"] else flags in
  let flags := if has_flag flag GPIOLineFlagBiasPullDown
               then flags ++ ["BiasPullDown"] else flags in
  let flags := if has_flag flag GPIOLineFlagBiasDisabled
               then flags ++ ["BiasDisabled"] else flags in
  let flags := if has_flag flag GPIOLineFlagEventClockRealtime
               then flags ++ ["EventClockRealtime"] else flags in
  let flags := if has_flag flag GPIOLineFlagEventClockHTE
               then flags ++ ["EventClockHTE"] else flags in
  if Z.of_nat (List.length flags) =? 0 then "None"
  else strings_Join flags "|".

(** *** The rendering as the specification words it

    The thirteen named bits in declaration order, the names of the set
    ones, and the reading back of a rendered string. *)

Definition flag_table : list (GPIOLineFlag * string) :=
  [ (GPIOLineFlagUsed, "Used");
    (GPIOLineFlagActiveLow, "ActiveLow");
    (GPIOLineFlagInput, "Input");
    (GPIOLineFlagOutput, "Output");
    (GPIOLineFlagEdgeRising, "EdgeRising");
    (GPIOLineFlagEdgeFalling, "EdgeFalling");
    (GPIOLineFlagOpenDrain, "OpenDrain");
    (GPIOLineFlagOpenSource, "OpenSource");
    (GPIOLineFlagBiasPullUp, "BiasPullUp");
    (GPIOLineFlagBiasPullDown, "BiasPullDown");
    (GPIOLineFlagBiasDisabled, "BiasDisabled");
    (GPIOLineFlagEventClockRealtime, "EventClockRealtime");
    (GPIOLineFlagEventClockHTE, "EventClockHTE") ].

(** The table entries whose bit is set in [flag], in declaration order. *)
Definition set_entries (flag : GPIOLineFlag) : list (GPIOLineFlag * string) :=
  filter (fun p => Z.testbit flag (Z.log2 (fst p))) flag_table.

Definition set_flags (flag : GPIOLineFlag) : list GPIOLineFlag :=
  map fst (set_entries flag).

Definition set_names (flag : GPIOLineFlag) : list string :=
  map snd (set_entries flag).

(** The mask of the thirteen named bits. *)
Definition named_mask : Z := Z.ones 13.

(** Rendering by the specification: [None] for no name, else the names
    separated by a bar. *)
Definition render_spec (flag : GPIOLineFlag) : string :=
  match set_names flag with
  | [] => "None"
  | names => String.concat "|" names
  end.

(** Whether a character occurs in a string. *)
Fixpoint has_char (c : ascii) (s : string) : bool :=
  match s with
  | EmptyString => false
  | String c' s' => Ascii.eqb c' c || has_char c s'
  end.

(** Cutting a string at every occurrence of a separator character. *)
Fixpoint split_on (sep : ascii) (s : string) : list string :=
  match s with
  | EmptyString => [EmptyString]
  | String c s' =>
      if Ascii.eqb c sep then EmptyString :: split_on sep s'
      else match split_on sep s' with
           | [] => [String c EmptyString]
           | t :: ts => String c t :: ts
           end
  end.

Definition flag_of_name (n : string) : option GPIOLineFlag :=
  option_map fst (find (fun p => String.eqb (snd p) n) flag_table).

Fixpoint flags_of_names (names : list string) : list GPIOLineFlag :=
  match names with
  | [] => []
  | n :: rest =>
      match flag_of_name n with
      | Some f => f :: flags_of_names rest
      | None => flags_of_names rest
      end
  end.

(** Reading a rendered string back: [None] names no flag; any other string
    is cut at the bars and every piece is looked up in the table. *)
Definition interpret_rendering (s : string) : list GPIOLineFlag :=
  if String.eqb s "None" then []
  else flags_of_names (split_on "|"%char s).

(** The mask a list of flags stands for. *)
Definition mask_of (fs : list GPIOLineFlag) : Z :=
  fold_right Z.lor 0 fs.

(* ------------------------------------------------------------------ *)
(** ** Bytes, C strings and the raw kernel structs *)

Definition byte_val (b : byte) : Z := Z.of_N (Byte.to_N b).

Definition byte_of_Z (v : Z) : byte :=
  match Byte.of_N (Z.to_N (v mod 256)) with
  | Some b => b
  | None => x00
  end.

(** The value of a byte sequence read lowest byte first. *)
Fixpoint le_value (bs : list byte) : Z :=
  match bs with
  | [] => 0
  | b :: rest => byte_val b + 256 * le_value rest
  end.

(** The [n] bytes of a value, lowest first. *)
Fixpoint le_bytes (n : nat) (v : Z) : list byte :=
  match n with
  | O => []
  | S n' => byte_of_Z v :: le_bytes n' (v / 256)
  end.

(** A text as the bytes of a [char] array of capacity [cap]: the text's
    bytes, then zero bytes up to the capacity. *)
Definition char_array (cap : nat) (s : string) : list byte :=
  let bs := firstn cap (list_byte_of_string s) in
  bs ++ repeat x00 (cap - List.length bs).

(** The cgo side of [gpio.go]: the structs of [<linux/gpio.h>] the file
    includes, the helper functions of its C preamble, and [C.GoString]. *)
Module C.

(** Modelled from the spec: [GPIO_MAX_NAME_SIZE] of [<linux/gpio.h>], a
    header the sources include but do not hold; the capacity of the text
    buffers, 32 bytes each. *)
Definition GPIO_MAX_NAME_SIZE : nat := 32.

(** Modelled from the spec: [GPIO_V2_LINE_NUM_ATTRS_MAX] of
    [<linux/gpio.h>], the maximum attribute count per line-info query and
    the length of the attribute array; 10 in the kernel's header. *)
Definition GPIO_V2_LINE_NUM_ATTRS_MAX : nat := 10.

(** Modelled from the spec: [enum gpio_v2_line_attr_id] of
    [<linux/gpio.h>]; the tags FLAGS(1), OUTPUT_VALUES(2), DEBOUNCE(3),
    the values the Go constants [GPIOLineAttributeID...] repeat. *)
Definition GPIO_V2_LINE_ATTR_ID_FLAGS : Z := 1.
Definition GPIO_V2_LINE_ATTR_ID_OUTPUT_VALUES : Z := 2.
Definition GPIO_V2_LINE_ATTR_ID_DEBOUNCE : Z := 3.

(** Modelled from the spec: [struct gpiochip_info] of [<linux/gpio.h>]:
    two text buffers and a 32-bit line count,
    [{ char name[32]; char label[32]; __u32 lines; }]. *)
Record gpiochip_info : Type := {
  chip_name : list byte;
  chip_label : list byte;
  chip_lines : Z
}.

(** Modelled from the spec: [struct gpio_v2_line_attribute] of
    [<linux/gpio.h>]: a tag and an 8-byte payload union,
    [{ __u32 id; __u32 padding;
       union { __aligned_u64 flags; __aligned_u64 values;
               __u32 debounce_period_us; }; }].
    The union is kept as its eight bytes. *)
Record gpio_v2_line_attribute : Type := {
  attr_id : Z;
  attr_padding : Z;
  attr_union : list byte
}.

(** The members of the union, each read from the union's first bytes. *)
Definition attr_flags (a : gpio_v2_line_attribute) : Z :=
  le_value (firstn 8 (attr_union a)).
Definition attr_values (a : gpio_v2_line_attribute) : Z :=
  le_value (firstn 8 (attr_union a)).
Definition attr_debounce_period_us (a : gpio_v2_line_attribute) : Z :=
  le_value (firstn 4 (attr_union a)).

(** Modelled from the spec: [struct gpio_v2_line_info] of
    [<linux/gpio.h>]: two text buffers, the offset, the attribute count,
    the flags and the array of attribute entries,
    [{ char name[32]; char consumer[32]; __u32 offset; __u32 num_attrs;
       __aligned_u64 flags; struct gpio_v2_line_attribute attrs[10];
       __u32 padding[4]; }]. *)
Record gpio_v2_line_info : Type := {
  li_name : list byte;
  li_consumer : list byte;
  li_offset : Z;
  li_num_attrs : Z;
  li_flags : Z;
  li_attrs : list gpio_v2_line_attribute;
  li_padding : list Z
}.

(** The zero values Go's composite literals start from. *)
Definition zero_attribute : gpio_v2_line_attribute :=
  {| attr_id := 0; attr_padding := 0; attr_union := repeat x00 8 |}.

Definition zero_gpiochip_info : gpiochip_info :=
  {| chip_name := repeat x00 GPIO_MAX_NAME_SIZE;
     chip_label := repeat x00 GPIO_MAX_NAME_SIZE;
     chip_lines := 0 |}.

Definition zero_gpio_v2_line_info (offset : Z) : gpio_v2_line_info :=
  {| li_name := repeat x00 GPIO_MAX_NAME_SIZE;
     li_consumer := repeat x00 GPIO_MAX_NAME_SIZE;
     li_offset := offset;
     li_num_attrs := 0;
     li_flags := 0;
     li_attrs := repeat zero_attribute GPIO_V2_LINE_NUM_ATTRS_MAX;
     li_padding := repeat 0 4 |}.

(** The bytes of the structs from a given field to the end of the
    struct: what a [char *] to that field can reach. *)
Definition attribute_bytes (a : gpio_v2_line_attribute) : list byte :=
  le_bytes 4 (attr_id a) ++ le_bytes 4 (attr_padding a) ++ attr_union a.

Definition chip_after_label (info : gpiochip_info) : list byte :=
  le_bytes 4 (chip_lines info).
Definition chip_from_label (info : gpiochip_info) : list byte :=
  chip_label info ++ chip_after_label info.
Definition chip_from_name (info : gpiochip_info) : list byte :=
  chip_name info ++ chip_from_label info.

Definition line_after_consumer (info : gpio_v2_line_info) : list byte :=
  le_bytes 4 (li_offset info) ++ le_bytes 4 (li_num_attrs info)
  ++ le_bytes 8 (li_flags info)
  ++ flat_map attribute_bytes (li_attrs info)
  ++ flat_map (le_bytes 4) (li_padding info).
Definition line_from_consumer (info : gpio_v2_line_info) : list byte :=
  li_consumer info ++ line_after_consumer info.
Definition line_from_name (info : gpio_v2_line_info) : list byte :=
  li_name info ++ line_from_consumer info.

(** The bytes before the first zero byte of [mem]; [None] when [mem]
    holds no zero byte, so that the scan leaves the object. *)
Fixpoint until_nul (mem : list byte) : option (list byte) :=
  match mem with
  | [] => None
  | b :: rest =>
      if Byte.eqb b x00 then Some []
      else option_map (cons b) (until_nul rest)
  end.

(** [C.GoString(p)], [mem] being the bytes of the object from [p] on:
    the C string at [p] as a Go string. *)
Definition GoString (mem : list byte) : option string :=
  option_map string_of_list_byte (until_nul mem).

(** [__u64 convert_line_attribute(struct gpio_v2_line_attribute *attr)] *)
Definition convert_line_attribute (attr : gpio_v2_line_attribute) : Z :=
  if attr_id attr =? GPIO_V2_LINE_ATTR_ID_FLAGS then
    attr_flags attr
  else if attr_id attr =? GPIO_V2_LINE_ATTR_ID_OUTPUT_VALUES then
    attr_values attr
  else if attr_id attr =? GPIO_V2_LINE_ATTR_ID_DEBOUNCE then
    uint64 (attr_debounce_period_us attr)
  else 0.

End C.

(** The raw 64-bit payload of an attribute entry: its eight union bytes
    as one number. *)
Definition raw_payload (a : C.gpio_v2_line_attribute) : Z :=
  le_value (firstn 8 (C.attr_union a)).

(** A raw struct as the kernel's layout has it: buffers and arrays of
    their declared capacity, numbers in the range of their type. *)
Definition wf_attribute (a : C.gpio_v2_line_attribute) : Prop :=
  0 <= C.attr_id a < 2 ^ 32 /\ 0 <= C.attr_padding a < 2 ^ 32 /\
  List.length (C.attr_union a) = 8%nat.

Definition wf_chip_info (info : C.gpiochip_info) : Prop :=
  List.length (C.chip_name info) = C.GPIO_MAX_NAME_SIZE /\
  List.length (C.chip_label info) = C.GPIO_MAX_NAME_SIZE /\
  0 <= C.chip_lines info < 2 ^ 32.

Definition wf_line_info (info : C.gpio_v2_line_info) : Prop :=
  List.length (C.li_name info) = C.GPIO_MAX_NAME_SIZE /\
  List.length (C.li_consumer info) = C.GPIO_MAX_NAME_SIZE /\
  0 <= C.li_offset info < 2 ^ 32 /\
  0 <= C.li_num_attrs info < 2 ^ 32 /\
  0 <= C.li_flags info < 2 ^ 64 /\
  List.length (C.li_attrs info) = C.GPIO_V2_LINE_NUM_ATTRS_MAX /\
  Forall wf_attribute (C.li_attrs info) /\
  List.length (C.li_padding info) = 4%nat /\
  Forall (fun p => 0 <= p < 2 ^ 32) (C.li_padding info).

(** A text buffer as the kernel fills it: it holds a terminating zero
    byte. *)
Definition terminated (buf : list byte) : Prop := In x00 buf.

(** The fixed-buffer-to-text rule of the specification: the bytes of the
    buffer up to its first zero byte, or all of them when it has none. *)
Fixpoint buffer_prefix (buf : list byte) : list byte :=
  match buf with
  | [] => []
  | b :: rest => if Byte.eqb b x00 then [] else b :: buffer_prefix rest
  end.

Definition fixed_buffer_to_text (buf : list byte) : string :=
  string_of_list_byte (buffer_prefix buf).

(* ------------------------------------------------------------------ *)
(** ** The Go values *)

(** [type GPIOLineAttributeID uint32] *)
Abbreviation GPIOLineAttributeID := Z (only parsing).
Definition GPIOLineAttributeIDFlags : GPIOLineAttributeID := 1.
Definition GPIOLineAttributeIDOutputValues : GPIOLineAttributeID := 2.
Definition GPIOLineAttributeIDDebounce : GPIOLineAttributeID := 3.

(** The three types that implement the interface [GPIOLineAttribute]. *)
Inductive GPIOLineAttribute : Type :=
| GPIOLineAttributeFlags (Flags : Z)
| GPIOLineAttributeOutputValues (Values : Z)
| GPIOLineAttributeDebounce (DebouncePeriodMicroseconds : Z).

Definition GetID (a : GPIOLineAttribute) : GPIOLineAttributeID :=
  match a with
  | GPIOLineAttributeFlags _ => GPIOLineAttributeIDFlags
  | GPIOLineAttributeOutputValues _ => GPIOLineAttributeIDOutputValues
  | GPIOLineAttributeDebounce _ => GPIOLineAttributeIDDebounce
  end.

Record GPIOChipInfo : Type := {
  Name : string;
  Label : string;
  Lines : Z
}.

(** [LineName] is the field [Name] of the Go struct. *)
Record GPIOLineInfo : Type := {
  LineName : string;
  Consumer : string;
  Offset : Z;
  Flags : GPIOLineFlag;
  Attributes : list GPIOLineAttribute
}.

(** [*os.File], by its descriptor, and the handle [GPIO]. *)
Record File : Type := { Fd : Z }.
Record GPIO : Type := { fd : File }.

(** Go's [error] values that occur: the [*os.PathError] of [os.OpenFile]
    and [syscall.Errno]. *)
Inductive error : Type :=
| PathError (Op Path : string) (Err : Z)
| Errno (e : Z).

Inductive panic : Type :=
| IndexOutOfRange (index : Z) (len : Z).

(** How a call ends: with a value and a nil error, with an error, in a
    run-time panic, or with no defined behaviour (a C read that leaves
    its object). *)
Inductive outcome (A : Type) : Type :=
| Ok (a : A)
| Err (e : error)
| Panic (p : panic)
| Undefined.
Arguments Ok {A} a.
Arguments Err {A} e.
Arguments Panic {A} p.
Arguments Undefined {A}.

(* ------------------------------------------------------------------ *)
(** ** The kernel and the calls made to it *)

Inductive ioctl_request : Type :=
| GPIO_GET_CHIPINFO_IOCTL
| GPIO_V2_GET_LINEINFO_IOCTL.

(** The calls that reach the operating system, in the order made. *)
Inductive event : Type :=
| EvOpen (path : string) (flag perm : Z)
| EvIoctl (fd : Z) (request : ioctl_request).

Definition is_ioctl (e : event) : bool :=
  match e with EvIoctl _ _ => true | EvOpen _ _ _ => false end.

(** What [ioctl] leaves behind: its return value, [errno], and the
    struct it was given, as filled. *)
Record ioctl_reply (T : Type) : Type := {
  ret : Z;
  c_errno : Z;
  filled : T
}.
Arguments ret {T} _.
Arguments c_errno {T} _.
Arguments filled {T} _.

(** The kernel answers each call from the calls made before it. [k_open]
    gives the new descriptor or the error number. *)
Record kernel : Type := {
  k_open : list event -> string -> Z -> Z -> Z + Z;
  k_chipinfo : list event -> Z -> C.gpiochip_info ->
               ioctl_reply C.gpiochip_info;
  k_lineinfo : list event -> Z -> C.gpio_v2_line_info ->
               ioctl_reply C.gpio_v2_line_info
}.

(** Computations that call the kernel: the calls so far go in, the
    outcome and the calls so far come out. *)
Definition M (A : Type) : Type := list event -> outcome A * list event.

Definition mret {A} (a : A) : M A := fun tr => (Ok a, tr).

Definition mfail {A} (e : error) : M A := fun tr => (Err e, tr).

Definition lift {A} (o : outcome A) : M A := fun tr => (o, tr).

Definition mbind {A B} (m : M A) (f : A -> M B) : M B :=
  fun tr =>
    match m tr with
    | (Ok a, tr') => f a tr'
    | (Err e, tr') => (Err e, tr')
    | (Panic p, tr') => (Panic p, tr')
    | (Undefined, tr') => (Undefined, tr')
    end.

Notation "x <- m ;; k" := (mbind m (fun x => k))
  (at level 61, m at next level, right associativity).

Definition obind {A B} (o : outcome A) (f : A -> outcome B) : outcome B :=
  match o with
  | Ok a => f a
  | Err e => Err e
  | Panic p => Panic p
  | Undefined => Undefined
  end.

(** A C read that may leave its object. *)
Definition defined {A} (o : option A) : outcome A :=
  match o with
  | Some a => Ok a
  | None => Undefined
  end.

Definition O_RDWR : Z := 2.
Definition ENOENT : Z := 2.
Definition ENODEV : Z := 19.
Definition EINVAL : Z := 22.
Definition ENOTTY : Z := 25.

Section Operations.

Variable word : arch.
Variable K : kernel.

(** [os.OpenFile(name, flag, perm)]: the file, or a [*PathError] that
    holds the error number of the failed [open]. *)
Definition os_OpenFile (name : string) (flag perm : Z)
  : list event -> (File + error) * list event :=
  fun tr =>
    let tr' := tr ++ [EvOpen name flag perm] in
    match k_open K tr name flag perm with
    | inl d => (inl {| Fd := d |}, tr')
    | inr e => (inr (PathError "open" name e), tr')
    end.

(** [int get_gpio_chip_info(int fd, struct gpiochip_info *info)] *)
Definition get_gpio_chip_info (d : Z) (info : C.gpiochip_info)
  : M (ioctl_reply C.gpiochip_info) :=
  fun tr =>
    (Ok (k_chipinfo K tr d info), tr ++ [EvIoctl d GPIO_GET_CHIPINFO_IOCTL]).

(** [int get_gpio_v2_line_info(int fd, struct gpio_v2_line_info *info)] *)
Definition get_gpio_v2_line_info (d : Z) (info : C.gpio_v2_line_info)
  : M (ioctl_reply C.gpio_v2_line_info) :=
  fun tr =>
    (Ok (k_lineinfo K tr d info),
     tr ++ [EvIoctl d GPIO_V2_GET_LINEINFO_IOCTL]).

(** [func OpenGPIO(dev string)], returning a [*GPIO] and an [error] *)
Definition OpenGPIO (dev : string) : M GPIO :=
  fun tr =>
    match os_OpenFile dev O_RDWR 0 tr with
    | (inr err, tr') => (Err err, tr')
    | (inl f, tr') => (Ok {| fd := f |}, tr')
    end.

(** The decoding of a filled [struct gpiochip_info]: the composite
    literal at the end of [GetChipInfo]. *)
Definition decode_chip_info (info : C.gpiochip_info) : outcome GPIOChipInfo :=
  obind (defined (C.GoString (C.chip_from_name info))) (fun name =>
  obind (defined (C.GoString (C.chip_from_label info))) (fun label =>
  Ok {| Name := name; Label := label; Lines := uint32 (C.chip_lines info) |})).

(** [func (g *GPIO) GetChipInfo()], returning a [*GPIOChipInfo] and an [error] *)
Definition GetChipInfo (g : GPIO) : M GPIOChipInfo :=
  let info := C.zero_gpiochip_info in
  let d := int word (Fd (fd g)) in
  r <- get_gpio_chip_info (C_int d) info ;;
  let err := ret r in
  let info := filled r in
  if negb (err =? 0) then mfail (Errno (uintptr word err))
  else lift (decode_chip_info info).

(** The body of the loop of [GetLineInfo] for one entry: the entry
    [attr] is [info.attrs[i]]. *)
Definition append_attribute (attributes : list GPIOLineAttribute)
    (attr : C.gpio_v2_line_attribute) : list GPIOLineAttribute :=
  let value := C.convert_line_attribute attr in
  if C.attr_id attr =? C.GPIO_V2_LINE_ATTR_ID_FLAGS then
    attributes ++ [GPIOLineAttributeFlags (uint64 value)]
  else if C.attr_id attr =? C.GPIO_V2_LINE_ATTR_ID_OUTPUT_VALUES then
    attributes ++ [GPIOLineAttributeOutputValues (uint64 value)]
  else if C.attr_id attr =? C.GPIO_V2_LINE_ATTR_ID_DEBOUNCE then
    attributes ++ [GPIOLineAttributeDebounce (uint32 value)]
  else attributes.

(** [for i := 0; i < nAttrs; i++ { ... }], with [todo] iterations left
    to run from index [i]. Indexing the array [info.attrs] outside its
    length panics. *)
Fixpoint attr_loop (attrs : list C.gpio_v2_line_attribute)
    (todo : nat) (i : nat) (attributes : list GPIOLineAttribute)
  : outcome (list GPIOLineAttribute) :=
  match todo with
  | O => Ok attributes
  | S todo' =>
      match nth_error attrs i with
      | None =>
          Panic (IndexOutOfRange (Z.of_nat i) (Z.of_nat (List.length attrs)))
      | Some attr =>
          attr_loop attrs todo' (S i) (append_attribute attributes attr)
      end
  end.

(** The attribute part of [GetLineInfo]: [nAttrs := int(info.num_attrs)]
    and the loop. *)
Definition decode_attributes (info : C.gpio_v2_line_info)
  : outcome (list GPIOLineAttribute) :=
  let attributes : list GPIOLineAttribute := [] in
  let nAttrs := int word (C.li_num_attrs info) in
  attr_loop (C.li_attrs info) (Z.to_nat nAttrs) 0 attributes.

(** The decoding of a filled [struct gpio_v2_line_info]: the loop and
    the composite literal at the end of [GetLineInfo]. *)
Definition decode_line_info (info : C.gpio_v2_line_info)
  : outcome GPIOLineInfo :=
  obind (decode_attributes info) (fun attributes =>
  obind (defined (C.GoString (C.line_from_name info))) (fun name =>
  obind (defined (C.GoString (C.line_from_consumer info))) (fun consumer =>
  Ok {| LineName := name;
        Consumer := consumer;
        Offset := uint32 (C.li_offset info);
        Flags := uint64 (C.li_flags info);
        Attributes := attributes |}))).

(** [func (g *GPIO) GetLineInfo(line uint32)], returning a [*GPIOLineInfo] and
    an [error] *)
Definition GetLineInfo (g : GPIO) (line : Z) : M GPIOLineInfo :=
  let info := C.zero_gpio_v2_line_info (uint32 line) in
  let d := int word (Fd (fd g)) in
  r <- get_gpio_v2_line_info (C_int d) info ;;
  let err := ret r in
  let info := filled r in
  if negb (err =? 0) then mfail (Errno (uintptr word err))
  else lift (decode_line_info info).

End Operations.

(* ------------------------------------------------------------------ *)
(** ** Rendering of attributes *)

(** [fmt]'s verb [%x] on an unsigned number: its hexadecimal digits in
    lower case without leading zeros, ["0"] for zero. *)
Definition fmt_hex (v : Z) : string :=
  HexadecimalString.NilZero.string_of_uint (N.to_hex_uint (Z.to_N v)).

(** [fmt]'s verb [%d] on an unsigned number: its decimal digits. *)
Definition fmt_dec (v : Z) : string :=
  DecimalString.NilZero.string_of_uint (N.to_uint (Z.to_N v)).

(** The methods [String()] of the three attribute types:
    [fmt.Sprintf("flags=0x%x", a.Flags)],
    [fmt.Sprintf("values=0x%x", a.Values)] and
    [fmt.Sprintf("debounce_period_us=%d", a.DebouncePeriodMicroseconds)]. *)
Definition GPIOLineAttribute_String (a : GPIOLineAttribute) : string :=
  match a with
  | GPIOLineAttributeFlags Flags => ("flags=0x" ++ fmt_hex Flags)%string
  | GPIOLineAttributeOutputValues Values =>
      ("values=0x" ++ fmt_hex Values)%string
  | GPIOLineAttributeDebounce DebouncePeriodMicroseconds =>
      ("debounce_period_us=" ++ fmt_dec DebouncePeriodMicroseconds)%string
  end.

(** The values the field types of the attributes hold: [uint64] for
    [Flags] and [Values], [uint32] for the debounce period. *)
Definition attribute_in_range (a : GPIOLineAttribute) : Prop :=
  match a with
  | GPIOLineAttributeFlags v => 0 <= v < 2 ^ 64
  | GPIOLineAttributeOutputValues v => 0 <= v < 2 ^ 64
  | GPIOLineAttributeDebounce v => 0 <= v < 2 ^ 32
  end.

(* ------------------------------------------------------------------ *)
(** ** Listing the devices *)

(** [strings.HasPrefix(s, prefix)]:
    [len(s) >= len(prefix) && s[:len(prefix)] == prefix]. *)
Definition strings_HasPrefix (s prefix : string) : bool :=
  (String.length prefix <=? String.length s)%nat
  && String.eqb (substring 0 (String.length prefix) s) prefix.

(** [func ListGPIODevices()], returning the paths and an [error].
    [os_ReadDir] stands for [os.ReadDir]: for a directory it gives the
    names of the entries read and the error, if any. *)
Definition ListGPIODevices
    (os_ReadDir : string -> list string * option error)
  : outcome (list string) :=
  let '(entries, err) := os_ReadDir "/dev" in
  match err with
  | Some e => Err e
  | None =>
      let gpios : list string := [] in
      Ok (fold_left
            (fun gpios entry =>
               if strings_HasPrefix entry "gpiochip"
               then gpios ++ [("/dev/" ++ entry)%string]
               else gpios)
            entries gpios)
  end.

(* ------------------------------------------------------------------ *)
(** ** The decoding as the specification words it *)

(** The tags the attribute decode knows. *)
Definition known_tag (a : C.gpio_v2_line_attribute) : bool :=
  (C.attr_id a =? 1) || (C.attr_id a =? 2) || (C.attr_id a =? 3).

(** One raw entry to at most one variant: tag 1 to [Flags] of the raw
    payload, tag 2 to [OutputValues] of the raw payload, tag 3 to
    [Debounce] of the payload's low 32 bits, any other tag to nothing. *)
Definition decode_entry (a : C.gpio_v2_line_attribute)
  : option GPIOLineAttribute :=
  if C.attr_id a =? 1 then Some (GPIOLineAttributeFlags (raw_payload a))
  else if C.attr_id a =? 2 then
    Some (GPIOLineAttributeOutputValues (raw_payload a))
  else if C.attr_id a =? 3 then
    Some (GPIOLineAttributeDebounce (raw_payload a mod 2 ^ 32))
  else None.

(** The decode applied to entries in order, unknown ones skipped. *)
Fixpoint decode_entries (l : list C.gpio_v2_line_attribute)
  : list GPIOLineAttribute :=
  match l with
  | [] => []
  | a :: rest =>
      match decode_entry a with
      | Some v => v :: decode_entries rest
      | None => decode_entries rest
      end
  end.

(** The descriptor as the C functions receive it. *)
Definition c_fd (word : arch) (g : GPIO) : Z := C_int (int word (Fd (fd g))).

(** What the kernel answers to the query of [GetChipInfo] and of
    [GetLineInfo]. *)
Definition chip_reply (word : arch) (K : kernel) (g : GPIO) (tr : list event)
  : ioctl_reply C.gpiochip_info :=
  k_chipinfo K tr (c_fd word g) C.zero_gpiochip_info.

Definition line_reply (word : arch) (K : kernel) (g : GPIO) (line : Z)
    (tr : list event) : ioctl_reply C.gpio_v2_line_info :=
  k_lineinfo K tr (c_fd word g) (C.zero_gpio_v2_line_info (uint32 line)).

(* ------------------------------------------------------------------ *)
(** ** Sample kernels and structs *)

Module Sample.

Definition attribute (tag payload : Z) : C.gpio_v2_line_attribute :=
  {| C.attr_id := tag; C.attr_padding := 0;
     C.attr_union := le_bytes 8 payload |}.

(** A line with [n] attributes reported, the first entries being
    [{tag:1, payload:0x0C}], [{tag:99, payload:0xFF}] and a debounce
    entry whose union holds bits above bit 31. *)
Definition line_info (n : Z) : C.gpio_v2_line_info :=
  {| C.li_name := char_array 32 "GPIO17";
     C.li_consumer := char_array 32 "led";
     C.li_offset := 17;
     C.li_num_attrs := n;
     C.li_flags := 9;
     C.li_attrs := [attribute 1 12; attribute 99 255;
                    attribute 3 (2 ^ 40 + 5)]
                   ++ repeat C.zero_attribute 7;
     C.li_padding := repeat 0 4 |}.

Definition chip_info : C.gpiochip_info :=
  {| C.chip_name := char_array 32 "gpiochip0";
     C.chip_label := char_array 32 "pinctrl-bcm2835";
     C.chip_lines := 54 |}.

(** A chip-info struct whose name buffer holds no zero byte. *)
Definition unterminated_chip_info : C.gpiochip_info :=
  {| C.chip_name := repeat "a"%byte 32;
     C.chip_label := char_array 32 "b";
     C.chip_lines := 54 |}.

(** A kernel on which every [open] finds a device and both queries
    succeed, the line query reporting [n] attributes. *)
Definition good_kernel (n : Z) : kernel :=
  {| k_open := fun _ _ _ _ => inl 3;
     k_chipinfo := fun _ _ _ =>
       {| ret := 0; c_errno := 0; filled := chip_info |};
     k_lineinfo := fun _ _ _ =>
       {| ret := 0; c_errno := 0; filled := line_info n |} |}.

(** A kernel on which no path exists and both queries fail: the chip
    query with [ENOTTY], the line query with [ENODEV]. *)
Definition failing_kernel : kernel :=
  {| k_open := fun _ _ _ _ => inr ENOENT;
     k_chipinfo := fun _ _ info =>
       {| ret := -1; c_errno := ENOTTY; filled := info |};
     k_lineinfo := fun _ _ info =>
       {| ret := -1; c_errno := ENODEV; filled := info |} |}.

Definition handle : GPIO := {| fd := {| Fd := 3 |} |}.

End Sample.

(** A chip-info struct whose label buffer holds no zero byte, the name
    buffer being terminated. *)
Definition unterminated_label_chip_info : C.gpiochip_info :=
  {| C.chip_name := char_array 32 "gpiochip0";
     C.chip_label := repeat "b"%byte 32;
     C.chip_lines := 54 |}.

(** A kernel whose chip query succeeds and fills in the struct [info]. *)
Definition chip_kernel (info : C.gpiochip_info) : kernel :=
  {| k_open := fun _ _ _ _ => inl 3;
     k_chipinfo := fun _ _ _ =>
       {| ret := 0; c_errno := 0; filled := info |};
     k_lineinfo := fun _ _ request =>
       {| ret := -1; c_errno := ENOTTY; filled := request |} |}.

(* ------------------------------------------------------------------ *)
(** * Properties *)

(** ** Flag rendering *)

Section Rendering.

Lemma has_flag_testbit (flag k : Z) :
  0 <= k -> has_flag flag (Z.shiftl 1 k) = Z.testbit flag k.
Proof.
  intros Hk. unfold has_flag. rewrite Z.shiftl_1_l.
  destruct (Z.testbit flag k) eqn:Hb.
  - apply negb_true_iff, Z.eqb_neq. intros H0.
    assert (Hk' : Z.testbit (Z.land flag (2 ^ k)) k = true).
    { rewrite Z.land_spec, Hb, Z.pow2_bits_true by assumption. reflexivity. }
    rewrite H0, Z.bits_0 in Hk'. discriminate.
  - apply negb_false_iff, Z.eqb_eq. apply Z.bits_inj'. intros n Hn.
    rewrite Z.land_spec, Z.bits_0, Z.pow2_bits_eqb by assumption.
    destruct (Z.eqb_spec k n) as [->|_].
    + rewrite Hb. reflexivity.
    + apply andb_false_r.
Qed.

(** Every entry of the table is a single bit below bit 13. *)
Lemma flag_table_bits (p : GPIOLineFlag * string) :
  In p flag_table ->
  fst p = Z.shiftl 1 (Z.log2 (fst p)) /\ 0 <= Z.log2 (fst p) < 13.
Proof.
  unfold flag_table. simpl.
  intros H.
  repeat (destruct H as [<- | H]; [vm_compute; intuition congruence |]).
  contradiction.
Qed.

Lemma filter_has_flag (flag : Z) :
  filter (fun p => has_flag flag (fst p)) flag_table = set_entries flag.
Proof.
  unfold set_entries. apply filter_ext_in. intros p Hp.
  destruct (flag_table_bits p Hp) as [Hshape [Hlo _]].
  rewrite Hshape at 1. apply has_flag_testbit. assumption.
Qed.

(** Conditional appends in sequence collect the chosen elements. *)
Lemma fold_append_filter {A B} (f : A -> bool) (g : A -> B) (l : list A) :
  forall acc,
    fold_left (fun acc x => if f x then acc ++ [g x] else acc) l acc
    = acc ++ map g (filter f l).
Proof.
  induction l as [| x l IH]; intros acc; simpl.
  - symmetry. apply app_nil_r.
  - rewrite IH. destruct (f x); simpl.
    + rewrite <- app_assoc. reflexivity.
    + reflexivity.
Qed.

Lemma append_empty_r (s : string) : (s ++ "")%string = s.
Proof. induction s as [| c s IH]; simpl; [| rewrite IH]; reflexivity. Qed.

Lemma join_rest_concat (sep : string) (l : list string) :
  join_rest l sep =
  match l with
  | [] => ""
  | _ => (sep ++ String.concat sep l)%string
  end.
Proof.
  induction l as [| x l IH]; [reflexivity |].
  cbn [join_rest]. rewrite IH. destruct l as [| y l].
  - cbn [String.concat]. rewrite append_empty_r. reflexivity.
  - reflexivity.
Qed.

Lemma strings_Join_concat (sep : string) (l : list string) :
  strings_Join l sep = String.concat sep l.
Proof.
  destruct l as [| x [| y l]]; try reflexivity.
  unfold strings_Join. rewrite join_rest_concat. reflexivity.
Qed.

(** The source's chain of appends is the filter of the table. *)
Lemma String_as_filter (flag : GPIOLineFlag) :
  GPIOLineFlag_String flag =
  (let flags := map snd (filter (fun p => has_flag flag (fst p)) flag_table) in
   if Z.of_nat (List.length flags) =? 0 then "None"
   else strings_Join flags "|").
Proof.
  rewrite <- (app_nil_l (map snd _)).
  rewrite <- (fold_append_filter (fun p => has_flag flag (fst p)) snd).
  reflexivity.
Qed.

Lemma String_render_spec (flag : GPIOLineFlag) :
  GPIOLineFlag_String flag = render_spec flag.
Proof.
  rewrite String_as_filter, filter_has_flag. unfold render_spec, set_names.
  cbv zeta. destruct (map snd (set_entries flag)) as [| n names] eqn:E.
  - reflexivity.
  - rewrite strings_Join_concat. reflexivity.
Qed.

(** Only the bits below bit 13 select table entries. *)
Lemma set_entries_mod (m : Z) : set_entries (m mod 2 ^ 13) = set_entries m.
Proof.
  unfold set_entries. apply filter_ext_in. intros p Hp.
  destruct (flag_table_bits p Hp) as [_ Hk].
  apply Z.mod_pow2_bits_low. lia.
Qed.

Lemma String_mod (m : Z) :
  GPIOLineFlag_String m = GPIOLineFlag_String (m mod 2 ^ 13).
Proof.
  rewrite !String_render_spec. unfold render_spec, set_names.
  rewrite set_entries_mod. reflexivity.
Qed.

(** *** Reading a rendering back *)

Lemma split_on_plain (sep : ascii) (s : string) :
  has_char sep s = false -> split_on sep s = [s].
Proof.
  induction s as [| c s IH]; simpl; intros H; [reflexivity |].
  apply orb_false_iff in H as [Hc Hs].
  rewrite Hc, (IH Hs). reflexivity.
Qed.

Lemma split_on_append (sep : ascii) (s rest : string) :
  has_char sep s = false ->
  split_on sep (s ++ String sep rest) = s :: split_on sep rest.
Proof.
  induction s as [| c s IH]; simpl; intros H.
  - rewrite Ascii.eqb_refl. reflexivity.
  - apply orb_false_iff in H as [Hc Hs].
    rewrite Hc, (IH Hs). reflexivity.
Qed.

Lemma split_on_concat (sep : ascii) (names : list string) :
  names <> [] ->
  Forall (fun n => has_char sep n = false) names ->
  split_on sep (String.concat (String sep "") names) = names.
Proof.
  induction names as [| x l IH]; intros Hne Hall; [contradiction |].
  inversion Hall as [| ? ? Hx Hl]; subst.
  destruct l as [| y l].
  - apply split_on_plain. assumption.
  - change (String.concat (String sep "") (x :: y :: l))
      with (x ++ String sep (String.concat (String sep "") (y :: l)))%string.
    rewrite split_on_append by assumption.
    rewrite IH by (assumption || discriminate). reflexivity.
Qed.

(** No name holds a bar, no name is the token [None], and each name is
    looked up to its own flag. *)
Lemma flag_table_names (p : GPIOLineFlag * string) :
  In p flag_table ->
  has_char "|"%char (snd p) = false /\
  flag_of_name (snd p) = Some (fst p) /\
  snd p <> "None".
Proof.
  unfold flag_table. simpl. intros H.
  repeat (destruct H as [<- | H];
          [vm_compute; repeat split; discriminate |]).
  contradiction.
Qed.

Lemma flags_of_names_entries (l : list (GPIOLineFlag * string)) :
  (forall p, In p l -> In p flag_table) ->
  flags_of_names (map snd l) = map fst l.
Proof.
  induction l as [| p l IH]; intros Hsub; [reflexivity |].
  cbn [map flags_of_names].
  destruct (flag_table_names p (Hsub p (or_introl eq_refl))) as [_ [-> _]].
  rewrite IH; [reflexivity |]. intros q Hq. apply Hsub. right. assumption.
Qed.

Lemma set_entries_in_table (m : Z) (p : GPIOLineFlag * string) :
  In p (set_entries m) -> In p flag_table.
Proof. unfold set_entries. intros H. apply filter_In in H. tauto. Qed.

Lemma interpret_render_spec (m : Z) :
  interpret_rendering (render_spec m) = set_flags m.
Proof.
  unfold render_spec, set_names, set_flags.
  pose proof (set_entries_in_table m) as Hsub.
  destruct (set_entries m) as [| p l] eqn:E; [reflexivity |].
  assert (Hsplit : split_on "|"%char (String.concat "|" (map snd (p :: l)))
                   = map snd (p :: l)).
  { apply split_on_concat; [discriminate |].
    apply Forall_forall. intros n Hn. apply in_map_iff in Hn as [q [<- Hq]].
    apply (flag_table_names q (Hsub q Hq)). }
  cbn [map] in *. set (names := snd p :: map snd l) in *.
  unfold interpret_rendering.
  destruct (String.eqb_spec (String.concat "|" names) "None") as [Heq | _].
  - exfalso. rewrite Heq in Hsplit. cbn in Hsplit.
    injection Hsplit as Hp _.
    destruct (flag_table_names p (Hsub p (or_introl eq_refl))) as [_ [_ Hn]].
    apply Hn. symmetry. exact Hp.
  - rewrite Hsplit. apply (flags_of_names_entries (p :: l)). assumption.
Qed.

(** *** The set flags as a mask *)

Lemma mask_of_filter_bits (m n : Z) (l : list (GPIOLineFlag * string)) :
  0 <= n ->
  (forall p, In p l -> In p flag_table) ->
  Z.testbit
    (mask_of (map fst (filter (fun p => Z.testbit m (Z.log2 (fst p))) l))) n
  = Z.testbit m n && existsb (fun p => Z.log2 (fst p) =? n) l.
Proof.
  intros Hn. induction l as [| p l IH]; intros Hsub.
  - cbn. rewrite Z.bits_0. symmetry. apply andb_false_r.
  - assert (Hl : forall q, In q l -> In q flag_table)
      by (intros q Hq; apply Hsub; right; assumption).
    destruct (flag_table_bits p (Hsub p (or_introl eq_refl))) as [Hshape [Hk _]].
    cbn [filter existsb].
    destruct (Z.testbit m (Z.log2 (fst p))) eqn:Hb.
    + cbn [map mask_of fold_right]. fold (mask_of (map fst
        (filter (fun p => Z.testbit m (Z.log2 (fst p))) l))).
      rewrite Z.lor_spec, (IH Hl). rewrite Hshape at 1.
      rewrite Z.shiftl_1_l, Z.pow2_bits_eqb by assumption.
      destruct (Z.eqb_spec (Z.log2 (fst p)) n) as [<- | _].
      * rewrite Hb. reflexivity.
      * reflexivity.
    + rewrite (IH Hl).
      destruct (Z.eqb_spec (Z.log2 (fst p)) n) as [<- | _].
      * rewrite Hb. reflexivity.
      * reflexivity.
Qed.

Lemma table_covers_low_bits (n : Z) :
  0 <= n ->
  existsb (fun p => Z.log2 (fst p) =? n) flag_table = (n <? 13).
Proof.
  intros Hn. destruct (Z.ltb_spec n 13) as [Hlt | Hge].
  - rewrite <- (Z2Nat.id n Hn) in *. set (k := Z.to_nat n) in *.
  assert (Hk : (k < 13)%nat) by lia. clearbody k. clear Hn Hlt.
  do 13 (destruct k as [| k]; [reflexivity |]). lia.
- destruct (existsb _ flag_table) eqn:E; [| reflexivity].
    apply existsb_exists in E as [p [Hp Hk]].
    destruct (flag_table_bits p Hp) as [_ [_ Hlt]].
    apply Z.eqb_eq in Hk. rewrite Hk in Hlt. lia.
Qed.

Lemma mask_of_set_flags (m : Z) :
  mask_of (set_flags m) = Z.land m named_mask.
Proof.
  apply Z.bits_inj'. intros n Hn.
  unfold set_flags, set_entries, named_mask.
  rewrite mask_of_filter_bits by (assumption || auto).
  rewrite table_covers_low_bits by assumption.
  rewrite Z.land_spec, Z.testbit_ones_nonneg by lia.
  reflexivity.
Qed.

End Rendering.

(** ** Bytes and numbers *)

Section Bytes.

Lemma byte_val_range (b : byte) : 0 <= byte_val b < 256.
Proof.
  unfold byte_val. pose proof (Byte.to_N_bounded b). lia.
Qed.

Lemma le_value_range (bs : list byte) :
  0 <= le_value bs < 256 ^ Z.of_nat (List.length bs).
Proof.
  induction bs as [| b bs IH].
  - simpl. lia.
  - cbn [le_value List.length]. rewrite Nat2Z.inj_succ, Z.pow_succ_r by lia.
    pose proof (byte_val_range b). lia.
Qed.

(** Reading fewer bytes gives the low part of the number. *)
Lemma le_value_firstn (n : nat) (bs : list byte) :
  le_value (firstn n bs) = le_value bs mod 256 ^ Z.of_nat n.
Proof.
  revert bs. induction n as [| n IH]; intros bs.
  - simpl. rewrite Z.mod_1_r. reflexivity.
  - destruct bs as [| b bs].
    + cbn [firstn le_value]. symmetry. apply Z.mod_0_l.
      apply Z.pow_nonzero; lia.
    + cbn [firstn le_value]. rewrite IH.
      rewrite Nat2Z.inj_succ, Z.pow_succ_r by lia.
      pose proof (byte_val_range b) as Hb.
      assert (Hpos : 0 < 256 ^ Z.of_nat n) by (apply Z.pow_pos_nonneg; lia).
      set (M := 256 ^ Z.of_nat n) in *. set (q := le_value bs).
      pose proof (Z.mod_pos_bound q M Hpos) as Hq.
      pose proof (Z.div_mod q M ltac:(lia)) as Hdm.
      apply Z.mod_unique_pos with (q := q / M); lia.
Qed.

Lemma firstn_le_range (n : nat) (bs : list byte) :
  0 <= le_value (firstn n bs) < 256 ^ Z.of_nat n.
Proof.
  rewrite le_value_firstn. apply Z.mod_pos_bound.
  apply Z.pow_pos_nonneg; lia.
Qed.

Lemma raw_payload_range (a : C.gpio_v2_line_attribute) :
  0 <= raw_payload a < 2 ^ 64.
Proof. exact (firstn_le_range 8 (C.attr_union a)). Qed.

(** The 32-bit member of the union is the low half of the payload. *)
Lemma debounce_low_half (a : C.gpio_v2_line_attribute) :
  C.attr_debounce_period_us a = raw_payload a mod 2 ^ 32.
Proof.
  unfold C.attr_debounce_period_us, raw_payload.
  replace (firstn 4 (C.attr_union a))
    with (firstn 4 (firstn 8 (C.attr_union a)))
    by (rewrite firstn_firstn; reflexivity).
  exact (le_value_firstn 4 _).
Qed.

Lemma int_small (word : arch) (n : Z) :
  0 <= n < 2 ^ 31 -> int word n = n.
Proof.
  intros Hn. unfold int, to_signed.
  destruct word; cbn [word_bits].
  - change (2 ^ (32 - 1)) with 2147483648.
    change (2 ^ 32) with 4294967296.
    rewrite Z.mod_small; lia.
  - change (2 ^ (64 - 1)) with 9223372036854775808.
    change (2 ^ 64) with 18446744073709551616.
    rewrite Z.mod_small; lia.
Qed.

Lemma uint32_small (n : Z) : 0 <= n < 2 ^ 32 -> uint32 n = n.
Proof. intros H. apply Z.mod_small. assumption. Qed.

Lemma uint64_small (n : Z) : 0 <= n < 2 ^ 64 -> uint64 n = n.
Proof. intros H. apply Z.mod_small. assumption. Qed.

End Bytes.

(** ** C strings *)

Section Text.

Lemma string_of_list_byte_app (a b : list byte) :
  string_of_list_byte (a ++ b)
  = (string_of_list_byte a ++ string_of_list_byte b)%string.
Proof.
  unfold string_of_list_byte.
  induction a as [| x a IH]; [reflexivity |].
  cbn [List.app map string_of_list_ascii String.append]. rewrite IH.
  reflexivity.
Qed.

Lemma string_of_list_byte_length (a : list byte) :
  String.length (string_of_list_byte a) = List.length a.
Proof.
  unfold string_of_list_byte.
  induction a as [| x a IH]; [reflexivity |].
  cbn [map string_of_list_ascii String.length List.length]. rewrite IH.
  reflexivity.
Qed.

(** A buffer that holds a zero byte is scanned to that byte, whatever
    follows the buffer. *)
Lemma until_nul_terminated (buf rest : list byte) :
  terminated buf -> C.until_nul (buf ++ rest) = Some (buffer_prefix buf).
Proof.
  unfold terminated. induction buf as [| b buf IH]; intros Hin.
  - contradiction.
  - cbn [List.app C.until_nul buffer_prefix].
    destruct (Byte.eqb b x00) eqn:Eb; [reflexivity |].
    destruct Hin as [-> | Hin]; [discriminate |].
    rewrite (IH Hin). reflexivity.
Qed.

(** A buffer with no zero byte is read whole, and the scan goes on in
    what follows it. *)
Lemma until_nul_unterminated (buf rest : list byte) :
  ~ terminated buf ->
  C.until_nul (buf ++ rest) = option_map (List.app buf) (C.until_nul rest)
  /\ buffer_prefix buf = buf.
Proof.
  unfold terminated. induction buf as [| b buf IH]; intros Hnot.
  - split; [| reflexivity]. cbn [List.app].
    destruct (C.until_nul rest); reflexivity.
  - cbn [List.app C.until_nul buffer_prefix].
    destruct (Byte.eqb b x00) eqn:Eb.
    + exfalso. apply Hnot. left. symmetry. apply Byte.byte_dec_bl. exact Eb.
    + destruct IH as [IH1 IH2]; [intros H; apply Hnot; right; exact H |].
      rewrite IH1, IH2. split; [| reflexivity].
      destruct (C.until_nul rest); reflexivity.
Qed.

Lemma buffer_prefix_shorter (buf : list byte) :
  terminated buf ->
  (List.length (buffer_prefix buf) < List.length buf)%nat.
Proof.
  unfold terminated. induction buf as [| b buf IH]; intros Hin.
  - contradiction.
  - cbn [buffer_prefix List.length].
    destruct (Byte.eqb b x00) eqn:Eb; [cbn; lia |].
    destruct Hin as [-> | Hin]; [discriminate |].
    cbn [List.length]. specialize (IH Hin). lia.
Qed.

Lemma GoString_terminated (buf rest : list byte) :
  terminated buf ->
  C.GoString (buf ++ rest) = Some (fixed_buffer_to_text buf).
Proof.
  intros H. unfold C.GoString. rewrite until_nul_terminated by assumption.
  reflexivity.
Qed.

Lemma GoString_unterminated (buf rest : list byte) :
  ~ terminated buf ->
  C.GoString (buf ++ rest)
  = option_map (String.append (string_of_list_byte buf)) (C.GoString rest).
Proof.
  intros H. unfold C.GoString.
  destruct (until_nul_unterminated buf rest H) as [-> _].
  destruct (C.until_nul rest); cbn [option_map]; [| reflexivity].
  rewrite string_of_list_byte_app. reflexivity.
Qed.

End Text.

(** ** The attribute loop *)

Section Attributes.

(** The loop body appends what the specification's decode gives. *)
Lemma append_attribute_decode (acc : list GPIOLineAttribute)
    (a : C.gpio_v2_line_attribute) :
  append_attribute acc a =
  acc ++ match decode_entry a with Some v => [v] | None => [] end.
Proof.
  unfold append_attribute, decode_entry, C.convert_line_attribute,
    C.GPIO_V2_LINE_ATTR_ID_FLAGS, C.GPIO_V2_LINE_ATTR_ID_OUTPUT_VALUES,
    C.GPIO_V2_LINE_ATTR_ID_DEBOUNCE.
  pose proof (raw_payload_range a) as Hr.
  destruct (C.attr_id a =? 1).
  - unfold C.attr_flags. fold (raw_payload a).
    rewrite uint64_small by assumption. reflexivity.
  - destruct (C.attr_id a =? 2).
    + unfold C.attr_values. fold (raw_payload a).
      rewrite uint64_small by assumption. reflexivity.
    + destruct (C.attr_id a =? 3).
      * rewrite debounce_low_half.
        assert (Hlow : 0 <= raw_payload a mod 2 ^ 32 < 2 ^ 32)
          by (apply Z.mod_pos_bound; lia).
        rewrite uint64_small by lia.
        rewrite uint32_small by assumption. reflexivity.
      * symmetry. apply app_nil_r.
Qed.

Lemma decode_entries_app (l1 l2 : list C.gpio_v2_line_attribute) :
  decode_entries (l1 ++ l2) = decode_entries l1 ++ decode_entries l2.
Proof.
  induction l1 as [| a l1 IH]; [reflexivity |].
  cbn [List.app decode_entries]. rewrite IH.
  destruct (decode_entry a); reflexivity.
Qed.

Lemma decode_entry_known (a : C.gpio_v2_line_attribute) :
  known_tag a = match decode_entry a with Some _ => true | None => false end.
Proof.
  unfold known_tag, decode_entry.
  destruct (C.attr_id a =? 1), (C.attr_id a =? 2), (C.attr_id a =? 3);
    reflexivity.
Qed.

(** As many variants come out as entries have a known tag. *)
Lemma decode_entries_length (l : list C.gpio_v2_line_attribute) :
  List.length (decode_entries l) = List.length (filter known_tag l).
Proof.
  induction l as [| a l IH]; [reflexivity |].
  cbn [decode_entries filter]. rewrite decode_entry_known.
  destruct (decode_entry a); cbn [List.length]; rewrite IH; reflexivity.
Qed.

Lemma decode_entries_bound (l : list C.gpio_v2_line_attribute) :
  (List.length (decode_entries l) <= List.length l)%nat.
Proof.
  rewrite decode_entries_length. apply filter_length_le.
Qed.

Lemma skipn_nth_error {A} (l : list A) (i : nat) (a : A) :
  nth_error l i = Some a -> skipn i l = a :: skipn (S i) l.
Proof.
  revert i. induction l as [| x l IH]; intros [| i] H; try discriminate.
  - injection H as ->. reflexivity.
  - cbn [nth_error] in H. change (skipn (S i) (x :: l)) with (skipn i l).
    rewrite (IH i H). reflexivity.
Qed.

(** Within the array the loop decodes the entries it runs over. *)
Lemma attr_loop_in_range (attrs : list C.gpio_v2_line_attribute)
    (todo : nat) :
  forall (i : nat) (acc : list GPIOLineAttribute),
    (i + todo <= List.length attrs)%nat ->
    attr_loop attrs todo i acc
    = Ok (acc ++ decode_entries (firstn todo (skipn i attrs))).
Proof.
  induction todo as [| todo IH]; intros i acc Hle.
  - cbn. rewrite app_nil_r. reflexivity.
  - cbn [attr_loop].
    destruct (nth_error attrs i) as [a |] eqn:En.
    + rewrite IH by lia. rewrite (skipn_nth_error _ _ _ En).
      cbn [firstn decode_entries]. rewrite append_attribute_decode.
      rewrite <- app_assoc. destruct (decode_entry a); reflexivity.
    + apply nth_error_None in En. lia.
Qed.

(** Running past the end of the array stops in a panic at the first
    index outside it. *)
Lemma attr_loop_past_end (attrs : list C.gpio_v2_line_attribute)
    (todo : nat) :
  forall (i : nat) (acc : list GPIOLineAttribute),
    (i <= List.length attrs)%nat ->
    (List.length attrs < i + todo)%nat ->
    attr_loop attrs todo i acc
    = Panic (IndexOutOfRange (Z.of_nat (List.length attrs))
                             (Z.of_nat (List.length attrs))).
Proof.
  induction todo as [| todo IH]; intros i acc Hi Hlt; [lia |].
  cbn [attr_loop].
  destruct (nth_error attrs i) as [a |] eqn:En.
  - assert (i < List.length attrs)%nat
      by (apply nth_error_Some; rewrite En; discriminate).
    apply IH; lia.
  - apply nth_error_None in En.
    replace i with (List.length attrs) by lia. reflexivity.
Qed.

(** The loop never reads outside the array and never returns an
    error. *)
Lemma attr_loop_outcome (attrs : list C.gpio_v2_line_attribute)
    (todo : nat) :
  forall (i : nat) (acc : list GPIOLineAttribute),
    (exists l, attr_loop attrs todo i acc = Ok l) \/
    (exists p, attr_loop attrs todo i acc = Panic p).
Proof.
  induction todo as [| todo IH]; intros i acc.
  - left. eexists. reflexivity.
  - cbn [attr_loop]. destruct (nth_error attrs i).
    + apply IH.
    + right. eexists. reflexivity.
Qed.

Lemma decode_attributes_in_range (word : arch) (info : C.gpio_v2_line_info) :
  0 <= C.li_num_attrs info <= Z.of_nat (List.length (C.li_attrs info)) ->
  C.li_num_attrs info < 2 ^ 31 ->
  decode_attributes word info =
  Ok (decode_entries
        (firstn (Z.to_nat (C.li_num_attrs info)) (C.li_attrs info))).
Proof.
  intros Hn Hsmall. unfold decode_attributes.
  rewrite int_small by lia.
  rewrite attr_loop_in_range by lia. reflexivity.
Qed.

Lemma decode_attributes_past_end (word : arch) (info : C.gpio_v2_line_info) :
  Z.of_nat (List.length (C.li_attrs info)) < int word (C.li_num_attrs info) ->
  decode_attributes word info =
  Panic (IndexOutOfRange (Z.of_nat (List.length (C.li_attrs info)))
                         (Z.of_nat (List.length (C.li_attrs info)))).
Proof.
  intros Hn. unfold decode_attributes.
  apply attr_loop_past_end; lia.
Qed.

(** Whatever the count says, a decoded sequence is no longer than the
    array. *)
Lemma decode_attributes_length (word : arch) (info : C.gpio_v2_line_info)
    (l : list GPIOLineAttribute) :
  decode_attributes word info = Ok l ->
  (List.length l <= List.length (C.li_attrs info))%nat.
Proof.
  unfold decode_attributes. intros H.
  set (n := Z.to_nat (int word (C.li_num_attrs info))) in *.
  destruct (Nat.le_gt_cases n (List.length (C.li_attrs info))) as [Hle | Hgt].
  - rewrite attr_loop_in_range in H by lia. injection H as <-.
    cbn [List.app]. etransitivity; [apply decode_entries_bound |].
    rewrite length_firstn. cbn [skipn]. lia.
  - rewrite attr_loop_past_end in H by lia. discriminate.
Qed.

End Attributes.

(** ** The operations *)

Section Calls.

Variable word : arch.
Variable K : kernel.

Lemma GetChipInfo_unfold (g : GPIO) (tr : list event) :
  GetChipInfo word K g tr =
  (if negb (ret (chip_reply word K g tr) =? 0)
   then Err (Errno (uintptr word (ret (chip_reply word K g tr))))
   else decode_chip_info (filled (chip_reply word K g tr)),
   tr ++ [EvIoctl (c_fd word g) GPIO_GET_CHIPINFO_IOCTL]).
Proof.
  unfold GetChipInfo, mbind, get_gpio_chip_info, chip_reply, c_fd.
  destruct (negb _); reflexivity.
Qed.

Lemma GetLineInfo_unfold (g : GPIO) (line : Z) (tr : list event) :
  GetLineInfo word K g line tr =
  (if negb (ret (line_reply word K g line tr) =? 0)
   then Err (Errno (uintptr word (ret (line_reply word K g line tr))))
   else decode_line_info word (filled (line_reply word K g line tr)),
   tr ++ [EvIoctl (c_fd word g) GPIO_V2_GET_LINEINFO_IOCTL]).
Proof.
  unfold GetLineInfo, mbind, get_gpio_v2_line_info, line_reply, c_fd.
  destruct (negb _); reflexivity.
Qed.

(** A failed query is answered with the call's return value as error
    number, whatever [errno] holds. *)
Lemma failed_query_error (r : Z) :
  r < 0 -> - 2 ^ 31 <= r -> uintptr word r = 2 ^ word_bits word + r.
Proof.
  intros Hneg Hlo. unfold uintptr, to_unsigned.
  symmetry. apply Z.mod_unique_pos with (q := -1).
  - destruct word; cbn [word_bits];
      [change (2 ^ 32) with 4294967296 in *
      | change (2 ^ 64) with 18446744073709551616 in *];
      change (2 ^ 31) with 2147483648 in *; lia.
  - lia.
Qed.

Lemma decode_chip_info_terminated (info : C.gpiochip_info) :
  terminated (C.chip_name info) ->
  terminated (C.chip_label info) ->
  decode_chip_info info =
  Ok {| Name := fixed_buffer_to_text (C.chip_name info);
        Label := fixed_buffer_to_text (C.chip_label info);
        Lines := uint32 (C.chip_lines info) |}.
Proof.
  intros Hn Hl. unfold decode_chip_info, C.chip_from_name, C.chip_from_label.
  rewrite !GoString_terminated by assumption. reflexivity.
Qed.

Lemma decode_line_info_terminated (info : C.gpio_v2_line_info)
    (attributes : list GPIOLineAttribute) :
  decode_attributes word info = Ok attributes ->
  terminated (C.li_name info) ->
  terminated (C.li_consumer info) ->
  decode_line_info word info =
  Ok {| LineName := fixed_buffer_to_text (C.li_name info);
        Consumer := fixed_buffer_to_text (C.li_consumer info);
        Offset := uint32 (C.li_offset info);
        Flags := uint64 (C.li_flags info);
        Attributes := attributes |}.
Proof.
  intros Ha Hn Hc.
  unfold decode_line_info, C.line_from_name, C.line_from_consumer.
  rewrite Ha. cbn [obind].
  rewrite !GoString_terminated by assumption. reflexivity.
Qed.

(** A decoded line info carries the attributes the loop produced. *)
Lemma decode_line_info_attributes (info : C.gpio_v2_line_info)
    (li : GPIOLineInfo) :
  decode_line_info word info = Ok li ->
  decode_attributes word info = Ok (Attributes li).
Proof.
  unfold decode_line_info. intros H.
  destruct (decode_attributes word info) as [l | | |]; try discriminate.
  cbn [obind] in H.
  destruct (C.GoString (C.line_from_name info)); try discriminate.
  destruct (C.GoString (C.line_from_consumer info)); try discriminate.
  cbn in H. injection H as <-. reflexivity.
Qed.

(** A panic in the loop is the outcome of the whole decoding: the text
    fields are not reached. *)
Lemma decode_line_info_panic (info : C.gpio_v2_line_info) (p : panic) :
  decode_attributes word info = Panic p ->
  decode_line_info word info = Panic p.
Proof. unfold decode_line_info. intros ->. reflexivity. Qed.

(** The decoding has no path that returns an error. *)
Lemma decode_line_info_no_error (info : C.gpio_v2_line_info) (e : error) :
  decode_line_info word info <> Err e.
Proof.
  unfold decode_line_info, decode_attributes.
  destruct (attr_loop_outcome (C.li_attrs info)
              (Z.to_nat (int word (C.li_num_attrs info))) 0 [])
    as [[l ->] | [p ->]]; cbn [obind]; [| discriminate].
  destruct (C.GoString (C.line_from_name info)); cbn; [| discriminate].
  destruct (C.GoString (C.line_from_consumer info)); cbn; discriminate.
Qed.

End Calls.

(* ------------------------------------------------------------------ *)
(** * The claims *)

(** ** Rendering of the flag set *)

Lemma flag_table_fst_inj (p q : Z * string) :
  In p flag_table -> In q flag_table -> fst p = fst q -> p = q.
Proof.
  intros Hp Hq Heq.
  destruct (flag_table_names p Hp) as [_ [Hfp _]].
  destruct (flag_table_names q Hq) as [_ [Hfq _]].
  destruct (flag_table_bits p Hp) as [_ Hkp].
  destruct (flag_table_bits q Hq) as [_ Hkq].
  assert (Hk : Z.log2 (fst p) = Z.log2 (fst q)) by (rewrite Heq; reflexivity).
  clear Hfp Hfq Heq.
  unfold flag_table in Hp, Hq. simpl in Hp, Hq.
  repeat (destruct Hp as [<- | Hp];
          [ repeat (destruct Hq as [<- | Hq];
                    [ first [reflexivity | vm_compute in Hk; discriminate] |]);
            contradiction |]).
  contradiction.
Qed.

(** C5: the rendering lists exactly the names of the set named bits, in
    declaration order and separated by a bar; with no named bit set it is
    the token [None], and with exactly one named bit set it is that
    flag's name alone. *)
Theorem C5_flag_rendering (flag : Z) :
  GPIOLineFlag_String flag = render_spec flag /\
  (set_flags flag = [] -> GPIOLineFlag_String flag = "None") /\
  (forall f n, In (f, n) flag_table -> set_flags flag = [f] ->
               GPIOLineFlag_String flag = n).
Proof.
  split; [apply String_render_spec |]. split.
  - intros H. rewrite String_render_spec. unfold render_spec, set_names.
    unfold set_flags in H. apply map_eq_nil in H. rewrite H. reflexivity.
  - intros f n Hin H. rewrite String_render_spec. unfold render_spec, set_names.
    unfold set_flags in H.
    destruct (set_entries flag) as [| p [| q l]] eqn:E; try discriminate.
    cbn in H. injection H as Hf.
    assert (Hp : In p flag_table)
      by (apply (set_entries_in_table flag); rewrite E; left; reflexivity).
    rewrite (flag_table_fst_inj p (f, n) Hp Hin Hf). reflexivity.
Qed.

Lemma C5_flag_rendering_witness :
  GPIOLineFlag_String GPIOLineFlagInput = "Input".
Proof.
  apply (proj2 (proj2 (C5_flag_rendering GPIOLineFlagInput))
           GPIOLineFlagInput "Input").
  - unfold flag_table. simpl. tauto.
  - reflexivity.
Defined.

(** C6: reading the rendering of a mask back through the table of names
    gives exactly the named bits that are set in the mask. *)
Theorem C6_rendering_round_trip (m : Z) :
  interpret_rendering (GPIOLineFlag_String m) = set_flags m /\
  mask_of (interpret_rendering (GPIOLineFlag_String m)) = Z.land m named_mask.
Proof.
  rewrite String_render_spec, interpret_render_spec.
  split; [reflexivity | apply mask_of_set_flags].
Qed.

(** C10: the rendering depends on the thirteen defined bits only: a mask
    renders as the mask with the bits above bit 12 cleared, and a mask
    with only undefined bits set renders as [None]. *)
Theorem C10_rendering_ignores_undefined_bits (m : Z) :
  GPIOLineFlag_String m = GPIOLineFlag_String (m mod 2 ^ 13) /\
  (m mod 2 ^ 13 = 0 -> GPIOLineFlag_String m = "None").
Proof.
  split; [apply String_mod |].
  intros H. rewrite String_mod, H. reflexivity.
Qed.

Lemma C10_rendering_ignores_undefined_bits_witness :
  GPIOLineFlag_String (2 ^ 63 + 2 ^ 13) = "None".
Proof.
  apply (proj2 (C10_rendering_ignores_undefined_bits (2 ^ 63 + 2 ^ 13))).
  reflexivity.
Defined.

(** ** The sample structs are laid out as the kernel's *)

Lemma sample_attribute_wf (tag payload : Z) :
  0 <= tag < 2 ^ 32 -> wf_attribute (Sample.attribute tag payload).
Proof.
  intros H. unfold wf_attribute, Sample.attribute. cbn. lia.
Qed.

Lemma sample_line_info_wf (n : Z) :
  0 <= n < 2 ^ 32 -> wf_line_info (Sample.line_info n).
Proof.
  intros Hn. unfold wf_line_info, Sample.line_info.
  cbn [C.li_name C.li_consumer C.li_offset C.li_num_attrs C.li_flags
       C.li_attrs C.li_padding].
  repeat split; try reflexivity; try lia.
  - cbn [List.app repeat].
    repeat (apply Forall_cons;
            [first [apply sample_attribute_wf; lia
                   | unfold wf_attribute; cbn; lia] |]).
    apply Forall_nil.
  - repeat (apply Forall_cons; [lia |]). apply Forall_nil.
Qed.

Lemma sample_chip_info_wf : wf_chip_info Sample.chip_info.
Proof.
  unfold wf_chip_info, Sample.chip_info. cbn [C.chip_name C.chip_label C.chip_lines].
  repeat split; try reflexivity; lia.
Qed.

Lemma sample_terminated (cap : nat) (s : string) :
  (String.length s < cap)%nat -> terminated (char_array cap s).
Proof.
  intros H. unfold terminated, char_array.
  apply in_or_app. right.
  assert (Hlen : (List.length (firstn cap (list_byte_of_string s)) < cap)%nat).
  { rewrite length_firstn.
    assert (List.length (list_byte_of_string s) = String.length s).
    { rewrite <- (string_of_list_byte_of_string s) at 2.
      symmetry. apply string_of_list_byte_length. }
    lia. }
  destruct (cap - List.length (firstn cap (list_byte_of_string s)))%nat
    as [| k] eqn:E; [lia |].
  left. reflexivity.
Qed.

(** ** Decoding of attributes *)

(** C1: an entry with tag 1 decodes to [Flags] of the raw 64-bit payload,
    one with tag 2 to [OutputValues] of the raw payload, one with tag 3 to
    [Debounce] of the low 32 bits of the raw payload. *)
Theorem C1_attribute_payload (acc : list GPIOLineAttribute)
    (attr : C.gpio_v2_line_attribute) :
  (C.attr_id attr = 1 ->
   append_attribute acc attr
   = acc ++ [GPIOLineAttributeFlags (raw_payload attr)]) /\
  (C.attr_id attr = 2 ->
   append_attribute acc attr
   = acc ++ [GPIOLineAttributeOutputValues (raw_payload attr)]) /\
  (C.attr_id attr = 3 ->
   append_attribute acc attr
   = acc ++ [GPIOLineAttributeDebounce (raw_payload attr mod 2 ^ 32)]).
Proof.
  repeat split; intros H; rewrite append_attribute_decode;
    unfold decode_entry; rewrite H; reflexivity.
Qed.

Lemma C1_attribute_payload_witness :
  append_attribute [] (Sample.attribute 1 12) = [GPIOLineAttributeFlags 12] /\
  append_attribute [] (Sample.attribute 2 (2 ^ 63 + 1))
  = [GPIOLineAttributeOutputValues (2 ^ 63 + 1)] /\
  append_attribute [] (Sample.attribute 3 (2 ^ 40 + 5))
  = [GPIOLineAttributeDebounce 5].
Proof.
  split; [| split].
  - exact (proj1 (C1_attribute_payload [] (Sample.attribute 1 12)) eq_refl).
  - exact (proj1 (proj2 (C1_attribute_payload []
                           (Sample.attribute 2 (2 ^ 63 + 1)))) eq_refl).
  - exact (proj2 (proj2 (C1_attribute_payload []
                           (Sample.attribute 3 (2 ^ 40 + 5)))) eq_refl).
Defined.

(** C2: the decode is applied to the first [num_attrs] entries in their
    order; entries with a tag outside 1, 2, 3 are skipped without error,
    so the attributes keep the kernel's order and are as many as the
    entries with a known tag among the first [num_attrs]. *)
Theorem C2_attributes_in_order (word : arch) (K : kernel) (g : GPIO)
    (line : Z) (tr : list event) :
  let r := line_reply word K g line tr in
  let info := filled r in
  let entries := firstn (Z.to_nat (C.li_num_attrs info)) (C.li_attrs info) in
  ret r = 0 ->
  wf_line_info info ->
  C.li_num_attrs info <= Z.of_nat C.GPIO_V2_LINE_NUM_ATTRS_MAX ->
  decode_attributes word info = Ok (decode_entries entries) /\
  (forall li tr', GetLineInfo word K g line tr = (Ok li, tr') ->
                  Attributes li = decode_entries entries) /\
  (terminated (C.li_name info) -> terminated (C.li_consumer info) ->
   exists li, fst (GetLineInfo word K g line tr) = Ok li /\
              Attributes li = decode_entries entries) /\
  (forall e, fst (GetLineInfo word K g line tr) <> Err e) /\
  List.length (decode_entries entries)
  = List.length (filter known_tag entries) /\
  (List.length (decode_entries entries) <= Z.to_nat (C.li_num_attrs info))%nat.
Proof.
  intros r info entries Hret Hwf Hmax.
  destruct Hwf as (_ & _ & _ & Hn & _ & Hlen & _).
  fold info in Hn, Hlen.
  assert (Hdec : decode_attributes word info = Ok (decode_entries entries)).
  { apply decode_attributes_in_range.
    - rewrite Hlen. lia.
    - unfold C.GPIO_V2_LINE_NUM_ATTRS_MAX in Hmax. lia. }
  split; [exact Hdec |]. split; [| split; [| split; [| split]]].
  - intros li tr' H. rewrite GetLineInfo_unfold in H. fold r in H.
    rewrite Hret in H. cbn [Z.eqb negb] in H. injection H as H _.
    apply decode_line_info_attributes in H. fold info in H.
    rewrite Hdec in H. injection H as <-. reflexivity.
  - intros Hname Hcons. rewrite GetLineInfo_unfold. fold r. rewrite Hret.
    cbn [Z.eqb negb fst]. fold info.
    rewrite (decode_line_info_terminated word info _ Hdec Hname Hcons).
    eexists. split; reflexivity.
  - intros e. rewrite GetLineInfo_unfold. fold r. rewrite Hret.
    cbn [Z.eqb negb fst]. apply decode_line_info_no_error.
  - apply decode_entries_length.
  - etransitivity; [apply decode_entries_bound |].
    unfold entries. rewrite length_firstn. lia.
Qed.

Lemma C2_attributes_in_order_witness :
  decode_attributes Arch64 (Sample.line_info 2) = Ok [GPIOLineAttributeFlags 12] /\
  GetLineInfo Arch64 (Sample.good_kernel 2) Sample.handle 17 []
  = (Ok {| LineName := "GPIO17"; Consumer := "led"; Offset := 17; Flags := 9;
           Attributes := [GPIOLineAttributeFlags 12] |},
     [EvIoctl 3 GPIO_V2_GET_LINEINFO_IOCTL]).
Proof.
  split.
  - exact (proj1 (C2_attributes_in_order Arch64 (Sample.good_kernel 2)
                    Sample.handle 17 [] eq_refl
                    (sample_line_info_wf 2 ltac:(lia)) ltac:(cbn; lia))).
  - reflexivity.
Defined.

(** ** Decoding of text fields *)

(** C3, as stated, fails: a text buffer with no zero byte is not cut at
    its capacity. Eight non-zero bytes followed in memory by the bytes of
    ["0"] and a zero byte decode to nine characters, and a chip-info
    struct whose 32-byte name buffer is full decodes to a name of 33
    characters, the last one taken from the label buffer. *)
Lemma C3_counterexample :
  (~ terminated (list_byte_of_string "gpiochip") /\
   C.GoString (list_byte_of_string "gpiochip" ++ list_byte_of_string "0" ++ [x00])
   = Some "gpiochip0" /\
   fixed_buffer_to_text (list_byte_of_string "gpiochip") = "gpiochip") /\
  wf_chip_info Sample.unterminated_chip_info /\
  exists info,
    decode_chip_info Sample.unterminated_chip_info = Ok info /\
    Name info
    <> fixed_buffer_to_text (C.chip_name Sample.unterminated_chip_info) /\
    String.length (Name info) = 33%nat /\
    List.length (C.chip_name Sample.unterminated_chip_info) = 32%nat.
Proof.
  split; [split; [| split; reflexivity] | split].
  - unfold terminated. cbn. intros H.
    repeat (destruct H as [H | H]; [discriminate |]). exact H.
  - unfold wf_chip_info. cbn. repeat split; try reflexivity; lia.
  - eexists. split; [reflexivity |]. cbn. repeat split; discriminate.
Qed.

(** C3, amended: a text buffer that holds a zero byte decodes to the
    bytes before its first zero byte, fewer than its capacity, whatever
    follows it, so nothing past the buffer is read; the buffer
    [0x67,0x70,0x69,0x6F,0,0,0,0] decodes to ["gpio"]. A buffer with no
    zero byte is taken whole and the decoding goes on in the bytes that
    follow it. In the chip-info and line-info structs, name, label and
    consumer buffers that hold a zero byte decode by the fixed-buffer
    rule. *)
Theorem C3_text_decoding (buf rest : list byte) :
  (terminated buf ->
   C.GoString (buf ++ rest) = Some (fixed_buffer_to_text buf) /\
   (String.length (fixed_buffer_to_text buf) < List.length buf)%nat) /\
  C.GoString ([x67; x70; x69; x6f; x00; x00; x00; x00] ++ rest) = Some "gpio" /\
  (~ terminated buf ->
   C.GoString (buf ++ rest)
   = option_map (String.append (string_of_list_byte buf)) (C.GoString rest)) /\
  (forall info,
     terminated (C.chip_name info) -> terminated (C.chip_label info) ->
     exists ci, decode_chip_info info = Ok ci /\
                Name ci = fixed_buffer_to_text (C.chip_name info) /\
                Label ci = fixed_buffer_to_text (C.chip_label info)) /\
  (forall word info li,
     terminated (C.li_name info) -> terminated (C.li_consumer info) ->
     decode_line_info word info = Ok li ->
     LineName li = fixed_buffer_to_text (C.li_name info) /\
     Consumer li = fixed_buffer_to_text (C.li_consumer info)).
Proof.
  split; [| split; [| split; [| split]]].
  - intros H. split; [apply GoString_terminated; assumption |].
    unfold fixed_buffer_to_text. rewrite string_of_list_byte_length.
    apply buffer_prefix_shorter. assumption.
  - reflexivity.
  - apply GoString_unterminated.
  - intros info Hn Hl. eexists. split.
    + apply decode_chip_info_terminated; assumption.
    + split; reflexivity.
  - intros word info li Hn Hc H.
    pose proof (decode_line_info_attributes word info li H) as Ha.
    rewrite (decode_line_info_terminated word info (Attributes li) Ha Hn Hc)
      in H.
    injection H as <-. split; reflexivity.
Qed.

Lemma C3_text_decoding_witness :
  C.GoString (char_array 8 "gpio" ++ [x01; x02])
  = Some (fixed_buffer_to_text (char_array 8 "gpio")) /\
  (String.length (fixed_buffer_to_text (char_array 8 "gpio"))
   < List.length (char_array 8 "gpio"))%nat.
Proof.
  apply (proj1 (C3_text_decoding (char_array 8 "gpio") [x01; x02])).
  unfold terminated. cbn. tauto.
Defined.

(** ** Errors of the queries *)

(** With a negative return value of the kernel call, both queries fail
    with that return value converted to an error number; [errno] is not
    looked at. *)
Lemma query_failure (word : arch) (K : kernel) (g : GPIO) (line : Z)
    (tr : list event) :
  (ret (chip_reply word K g tr) < 0 ->
   fst (GetChipInfo word K g tr)
   = Err (Errno (uintptr word (ret (chip_reply word K g tr))))) /\
  (ret (line_reply word K g line tr) < 0 ->
   fst (GetLineInfo word K g line tr)
   = Err (Errno (uintptr word (ret (line_reply word K g line tr))))).
Proof.
  split; intros H.
  - rewrite GetChipInfo_unfold. cbn [fst].
    destruct (Z.eqb_spec (ret (chip_reply word K g tr)) 0); [lia |].
    reflexivity.
  - rewrite GetLineInfo_unfold. cbn [fst].
    destruct (Z.eqb_spec (ret (line_reply word K g line tr)) 0); [lia |].
    reflexivity.
Qed.

(** C4 does not hold of the code: on a kernel whose line query fails with
    return value -1 and [errno] [ENODEV], and whose chip query fails with
    [ENOTTY], both operations fail with the error number made from the
    return value -1 (all bits set), not with the [errno] of the call. *)
Theorem C4_errno_not_preserved :
  c_errno (line_reply Arch64 Sample.failing_kernel Sample.handle 7 []) = ENODEV /\
  ret (line_reply Arch64 Sample.failing_kernel Sample.handle 7 []) = -1 /\
  GetLineInfo Arch64 Sample.failing_kernel Sample.handle 7 []
  = (Err (Errno 18446744073709551615), [EvIoctl 3 GPIO_V2_GET_LINEINFO_IOCTL]) /\
  GetLineInfo Arch32 Sample.failing_kernel Sample.handle 7 []
  = (Err (Errno 4294967295), [EvIoctl 3 GPIO_V2_GET_LINEINFO_IOCTL]) /\
  c_errno (chip_reply Arch64 Sample.failing_kernel Sample.handle []) = ENOTTY /\
  GetChipInfo Arch64 Sample.failing_kernel Sample.handle []
  = (Err (Errno 18446744073709551615), [EvIoctl 3 GPIO_GET_CHIPINFO_IOCTL]) /\
  Errno 18446744073709551615 <> Errno ENODEV /\
  Errno 4294967295 <> Errno ENODEV /\
  Errno 18446744073709551615 <> Errno ENOTTY.
Proof.
  repeat split; try reflexivity; discriminate.
Qed.

(** ** Decoding of the chip info *)

(** C7, as stated, fails: the call returning 0 and a struct of the
    kernel's layout do not make name and label decode by the fixed-buffer
    rule. With a full 32-byte name buffer the decoded name has 33
    characters, the last one taken from the label; with a full label
    buffer the decoded label has 33 characters, the last one being the
    low byte of the line count 54, the character ['6']. *)
Lemma C7_counterexample :
  (ret (chip_reply Arch64 (chip_kernel Sample.unterminated_chip_info)
          Sample.handle []) = 0 /\
   wf_chip_info Sample.unterminated_chip_info /\
   GetChipInfo Arch64 (chip_kernel Sample.unterminated_chip_info)
     Sample.handle []
   = (Ok {| Name := "aaaaaaaaaaaaaaaaaaaaaaaaaaaaaaaab";
            Label := "b"; Lines := 54 |},
      [EvIoctl 3 GPIO_GET_CHIPINFO_IOCTL]) /\
   fixed_buffer_to_text (C.chip_name Sample.unterminated_chip_info)
   = "aaaaaaaaaaaaaaaaaaaaaaaaaaaaaaaa" /\
   "aaaaaaaaaaaaaaaaaaaaaaaaaaaaaaaab"
   <> fixed_buffer_to_text (C.chip_name Sample.unterminated_chip_info)) /\
  (ret (chip_reply Arch64 (chip_kernel unterminated_label_chip_info)
          Sample.handle []) = 0 /\
   wf_chip_info unterminated_label_chip_info /\
   GetChipInfo Arch64 (chip_kernel unterminated_label_chip_info)
     Sample.handle []
   = (Ok {| Name := "gpiochip0";
            Label := "bbbbbbbbbbbbbbbbbbbbbbbbbbbbbbbb6"; Lines := 54 |},
      [EvIoctl 3 GPIO_GET_CHIPINFO_IOCTL]) /\
   fixed_buffer_to_text (C.chip_label unterminated_label_chip_info)
   = "bbbbbbbbbbbbbbbbbbbbbbbbbbbbbbbb" /\
   "bbbbbbbbbbbbbbbbbbbbbbbbbbbbbbbb6"
   <> fixed_buffer_to_text (C.chip_label unterminated_label_chip_info)).
Proof.
  split; (split; [reflexivity |]); (split; [| split; [reflexivity |]]).
  - unfold wf_chip_info. cbn. repeat split; try reflexivity; lia.
  - split; [reflexivity | cbn; discriminate].
  - unfold wf_chip_info. cbn. repeat split; try reflexivity; lia.
  - split; [reflexivity | cbn; discriminate].
Qed.

(** C7, amended: a chip-info struct that the kernel filled (the call
    returned 0, the struct has the kernel's layout) and whose name and
    label buffers each hold a zero byte always decodes: name and label
    by the fixed-buffer rule, lines copied. *)
Theorem C7_chip_info_decoding (word : arch) (K : kernel) (g : GPIO)
    (tr : list event) :
  let r := chip_reply word K g tr in
  let info := filled r in
  ret r = 0 ->
  wf_chip_info info ->
  terminated (C.chip_name info) ->
  terminated (C.chip_label info) ->
  GetChipInfo word K g tr
  = (Ok {| Name := fixed_buffer_to_text (C.chip_name info);
           Label := fixed_buffer_to_text (C.chip_label info);
           Lines := C.chip_lines info |},
     tr ++ [EvIoctl (c_fd word g) GPIO_GET_CHIPINFO_IOCTL]).
Proof.
  intros r info Hret (_ & _ & Hlines) Hn Hl.
  rewrite GetChipInfo_unfold. fold r. rewrite Hret. cbn [Z.eqb negb].
  fold info. rewrite decode_chip_info_terminated by assumption.
  rewrite uint32_small by assumption. reflexivity.
Qed.

Lemma C7_chip_info_decoding_witness :
  GetChipInfo Arch64 (Sample.good_kernel 0) Sample.handle []
  = (Ok {| Name := "gpiochip0"; Label := "pinctrl-bcm2835"; Lines := 54 |},
     [EvIoctl 3 GPIO_GET_CHIPINFO_IOCTL]).
Proof.
  exact (C7_chip_info_decoding Arch64 (Sample.good_kernel 0) Sample.handle []
           eq_refl sample_chip_info_wf
           (sample_terminated 32 "gpiochip0" ltac:(cbn; lia))
           (sample_terminated 32 "pinctrl-bcm2835" ltac:(cbn; lia))).
Defined.

(** ** The attribute count *)

(** C8, as stated, fails: with [num_attrs] 11 in a struct whose array
    holds 10 entries, [GetLineInfo] does not fail with an error; it ends
    in a run-time panic. *)
Lemma C8_counterexample :
  wf_line_info (Sample.line_info 11) /\
  Z.of_nat C.GPIO_V2_LINE_NUM_ATTRS_MAX < C.li_num_attrs (Sample.line_info 11) /\
  GetLineInfo Arch64 (Sample.good_kernel 11) Sample.handle 17 []
  = (Panic (IndexOutOfRange 10 10), [EvIoctl 3 GPIO_V2_GET_LINEINFO_IOCTL]) /\
  forall e, fst (GetLineInfo Arch64 (Sample.good_kernel 11) Sample.handle 17 [])
            <> Err e.
Proof.
  split; [apply sample_line_info_wf; lia |].
  split; [cbn; lia |]. split; [reflexivity |].
  intros e. cbn. discriminate.
Qed.

(** C8, amended: a decoded line info never has more attributes than the
    array has entries (10); when [num_attrs], read as a Go [int], exceeds
    that capacity, [GetLineInfo] ends in the run-time panic for index 10
    of an array of length 10, not in a returned error, and the attribute
    loop never reads outside the array. *)
Theorem C8_attribute_count_bound (word : arch) (K : kernel) (g : GPIO)
    (line : Z) (tr : list event) :
  let r := line_reply word K g line tr in
  let info := filled r in
  ret r = 0 ->
  wf_line_info info ->
  (forall li tr', GetLineInfo word K g line tr = (Ok li, tr') ->
     (List.length (Attributes li) <= C.GPIO_V2_LINE_NUM_ATTRS_MAX)%nat) /\
  (Z.of_nat C.GPIO_V2_LINE_NUM_ATTRS_MAX < int word (C.li_num_attrs info) ->
     fst (GetLineInfo word K g line tr) = Panic (IndexOutOfRange 10 10)) /\
  (forall e, fst (GetLineInfo word K g line tr) <> Err e) /\
  decode_attributes word info <> Undefined.
Proof.
  intros r info Hret Hwf.
  destruct Hwf as (_ & _ & _ & _ & _ & Hlen & _). fold info in Hlen.
  assert (Hget : GetLineInfo word K g line tr
                 = (decode_line_info word info,
                    tr ++ [EvIoctl (c_fd word g) GPIO_V2_GET_LINEINFO_IOCTL])).
  { rewrite GetLineInfo_unfold. fold r. rewrite Hret. reflexivity. }
  rewrite Hget. cbn [fst]. split; [| split; [| split]].
  - intros li tr' H. injection H as H _.
    apply decode_line_info_attributes in H.
    apply decode_attributes_length in H. rewrite Hlen in H. exact H.
  - intros Hbig. apply decode_line_info_panic.
    rewrite decode_attributes_past_end by (rewrite Hlen; exact Hbig).
    rewrite Hlen. reflexivity.
  - apply decode_line_info_no_error.
  - unfold decode_attributes.
    destruct (attr_loop_outcome (C.li_attrs info)
                (Z.to_nat (int word (C.li_num_attrs info))) 0 [])
      as [[l ->] | [p ->]]; discriminate.
Qed.

Lemma C8_attribute_count_bound_witness :
  fst (GetLineInfo Arch64 (Sample.good_kernel 11) Sample.handle 17 [])
  = Panic (IndexOutOfRange 10 10).
Proof.
  apply (proj1 (proj2 (C8_attribute_count_bound Arch64 (Sample.good_kernel 11)
                         Sample.handle 17 [] eq_refl
                         (sample_line_info_wf 11 ltac:(lia))))).
  cbn. lia.
Defined.

(** ** Opening the device *)

(** C9: [OpenGPIO] opens the path for reading and writing; when that
    fails it returns the error of the open, which holds the error number
    of the operating system, and when it succeeds it returns a handle on
    the new descriptor; in both cases the open is the only call made, so
    no ioctl is performed. Opening ["/dev/gpiochip999"] where no such
    path exists fails in this way. *)
Theorem C9_open_device (K : kernel) (dev : string) (tr : list event) :
  match k_open K tr dev O_RDWR 0 with
  | inr e =>
      OpenGPIO K dev tr
      = (Err (PathError "open" dev e), tr ++ [EvOpen dev O_RDWR 0])
  | inl d =>
      OpenGPIO K dev tr
      = (Ok {| fd := {| Fd := d |} |}, tr ++ [EvOpen dev O_RDWR 0])
  end /\
  filter is_ioctl (snd (OpenGPIO K dev tr)) = filter is_ioctl tr /\
  OpenGPIO Sample.failing_kernel "/dev/gpiochip999" []
  = (Err (PathError "open" "/dev/gpiochip999" ENOENT),
     [EvOpen "/dev/gpiochip999" O_RDWR 0]).
Proof.
  split; [| split; [| reflexivity]].
  - unfold OpenGPIO, os_OpenFile.
    destruct (k_open K tr dev O_RDWR 0); reflexivity.
  - unfold OpenGPIO, os_OpenFile.
    destruct (k_open K tr dev O_RDWR 0); cbn [snd];
      rewrite filter_app; cbn; apply app_nil_r.
Qed.

(* ------------------------------------------------------------------ *)
(** * Further properties of the code *)

(** ** More on the rendering of flags *)

Lemma flag_table_snd_inj (p q : Z * string) :
  In p flag_table -> In q flag_table -> snd p = snd q -> p = q.
Proof.
  intros Hp Hq Heq.
  destruct (flag_table_names p Hp) as [_ [Hfp _]].
  destruct (flag_table_names q Hq) as [_ [Hfq _]].
  rewrite Heq, Hfq in Hfp. injection Hfp as Hfst.
  destruct p, q. cbn in *. congruence.
Qed.

Lemma flag_table_name_nonempty (p : Z * string) :
  In p flag_table -> snd p <> "".
Proof.
  intros Hp Heq. destruct (flag_table_names p Hp) as [_ [Hf _]].
  rewrite Heq in Hf. discriminate.
Qed.

(** The pieces of a rendering are the token [None] or the names of the
    set flags. *)
Lemma split_String (m : Z) :
  split_on "|"%char (GPIOLineFlag_String m)
  = match set_names m with [] => ["None"] | _ :: _ => set_names m end.
Proof.
  rewrite String_render_spec. unfold render_spec.
  destruct (set_names m) as [| n l] eqn:E; [reflexivity |].
  rewrite <- E. apply split_on_concat.
  - rewrite E. discriminate.
  - unfold set_names. apply Forall_forall. intros x Hx.
    apply in_map_iff in Hx as [q [<- Hq]].
    apply (flag_table_names q (set_entries_in_table m q Hq)).
Qed.

(** X1: two masks render alike exactly when they agree on the thirteen
    named bits. *)
Theorem X1_rendering_injective (m1 m2 : Z) :
  GPIOLineFlag_String m1 = GPIOLineFlag_String m2
  <-> Z.land m1 named_mask = Z.land m2 named_mask.
Proof.
  split; intros H.
  - rewrite <- !mask_of_set_flags, <- !interpret_render_spec,
      <- !String_render_spec, H. reflexivity.
  - unfold named_mask in H. rewrite !Z.land_ones in H by lia.
    rewrite (String_mod m1), (String_mod m2), H. reflexivity.
Qed.

Lemma In_set_names (m f : Z) (n : string) :
  In (f, n) flag_table ->
  (In n (set_names m) <-> has_flag m f = true).
Proof.
  intros Hin. unfold set_names. rewrite <- filter_has_flag. split.
  - intros Hx. apply in_map_iff in Hx as [q [Hq1 Hq2]].
    apply filter_In in Hq2 as [Hq2 Hq3].
    rewrite (flag_table_snd_inj q (f, n) Hq2 Hin Hq1) in Hq3. exact Hq3.
  - intros Hset. apply in_map_iff. exists (f, n). split; [reflexivity |].
    apply filter_In. split; assumption.
Qed.

(** X2: the name of a flag is one of the bar-separated pieces of the
    rendering exactly when the code's test of that flag, [flag & F != 0],
    succeeds. *)
Theorem X2_name_listed_iff_flag_set (m f : Z) (n : string) :
  In (f, n) flag_table ->
  (In n (split_on "|"%char (GPIOLineFlag_String m)) <-> has_flag m f = true).
Proof.
  intros Hin. rewrite split_String.
  pose proof (In_set_names m f n Hin) as Hiff.
  destruct (set_names m) as [| x l] eqn:E; [| exact Hiff].
  split.
  - intros [Hn | []]. exfalso.
    destruct (flag_table_names (f, n) Hin) as [_ [_ Hne]].
    apply Hne. symmetry. exact Hn.
  - intros Hset. apply Hiff in Hset. destruct Hset.
Qed.

Lemma X2_name_listed_iff_flag_set_witness :
  In "Output" (split_on "|"%char (GPIOLineFlag_String 12)) <->
  has_flag 12 GPIOLineFlagOutput = true.
Proof.
  apply (X2_name_listed_iff_flag_set 12 GPIOLineFlagOutput "Output").
  unfold flag_table. simpl. tauto.
Defined.

(** X3: the rendering is never empty and every bar-separated piece of it
    is a non-empty token: no bar leads, ends or doubles. *)
Theorem X3_rendering_tokens_nonempty (m : Z) :
  GPIOLineFlag_String m <> "" /\
  Forall (fun t => t <> "") (split_on "|"%char (GPIOLineFlag_String m)).
Proof.
  assert (Hall : Forall (fun t => t <> "")
                   (split_on "|"%char (GPIOLineFlag_String m))).
  { rewrite split_String.
    destruct (set_names m) as [| x l] eqn:E.
    - constructor; [discriminate | constructor].
    - rewrite <- E. unfold set_names. apply Forall_forall. intros t Ht.
      apply in_map_iff in Ht as [q [<- Hq]].
      apply flag_table_name_nonempty.
      apply (set_entries_in_table m q Hq). }
  split; [| exact Hall].
  intros Hempty. rewrite Hempty in Hall. cbn in Hall.
  inversion Hall as [| ? ? Hne _]. apply Hne. reflexivity.
Qed.

(** ** More on the attribute loop *)

(** The loop in every case: the decode of the entries counted, or the
    panic at the first index outside the array. *)
Lemma decode_attributes_cases (word : arch) (info : C.gpio_v2_line_info) :
  decode_attributes word info =
  if int word (C.li_num_attrs info) <=? Z.of_nat (List.length (C.li_attrs info))
  then Ok (decode_entries
             (firstn (Z.to_nat (int word (C.li_num_attrs info)))
                     (C.li_attrs info)))
  else Panic (IndexOutOfRange (Z.of_nat (List.length (C.li_attrs info)))
                              (Z.of_nat (List.length (C.li_attrs info)))).
Proof.
  destruct (Z.leb_spec (int word (C.li_num_attrs info))
              (Z.of_nat (List.length (C.li_attrs info)))) as [Hle | Hgt].
  - unfold decode_attributes. rewrite attr_loop_in_range by lia. reflexivity.
  - apply decode_attributes_past_end. exact Hgt.
Qed.

Lemma int_Arch32_high (n : Z) :
  2 ^ 31 <= n < 2 ^ 32 -> int Arch32 n = n - 2 ^ 32.
Proof.
  intros Hn. unfold int, to_signed. cbn [word_bits].
  change (2 ^ (32 - 1)) with 2147483648 in *.
  change (2 ^ 31) with 2147483648 in *.
  change (2 ^ 32) with 4294967296 in *.
  replace (n + 2147483648) with (n - 2147483648 + 1 * 4294967296) by lia.
  rewrite Z.mod_add by lia. rewrite Z.mod_small; lia.
Qed.

Lemma int_Arch64_uint32 (n : Z) : 0 <= n < 2 ^ 32 -> int Arch64 n = n.
Proof.
  intros Hn. unfold int, to_signed. cbn [word_bits].
  change (2 ^ (64 - 1)) with 9223372036854775808.
  change (2 ^ 64) with 18446744073709551616.
  change (2 ^ 32) with 4294967296 in Hn.
  rewrite Z.mod_small; lia.
Qed.

Lemma GetID_decode_entries (l : list C.gpio_v2_line_attribute) :
  map GetID (decode_entries l) = map C.attr_id (filter known_tag l).
Proof.
  induction l as [| a l IH]; [reflexivity |].
  cbn [decode_entries filter]. unfold known_tag, decode_entry.
  destruct (Z.eqb_spec (C.attr_id a) 1) as [E1 | _].
  - cbn. rewrite IH, E1. reflexivity.
  - destruct (Z.eqb_spec (C.attr_id a) 2) as [E2 | _].
    + cbn. rewrite IH, E2. reflexivity.
    + destruct (Z.eqb_spec (C.attr_id a) 3) as [E3 | _].
      * cbn. rewrite IH, E3. reflexivity.
      * cbn. exact IH.
Qed.

Lemma decode_entries_in_range (l : list C.gpio_v2_line_attribute) :
  Forall attribute_in_range (decode_entries l).
Proof.
  induction l as [| a l IH]; [constructor |].
  cbn [decode_entries]. unfold decode_entry.
  pose proof (raw_payload_range a) as Hr.
  destruct (C.attr_id a =? 1); [constructor; [exact Hr | exact IH] |].
  destruct (C.attr_id a =? 2); [constructor; [exact Hr | exact IH] |].
  destruct (C.attr_id a =? 3); [| exact IH].
  constructor; [| exact IH]. cbn. apply Z.mod_pos_bound. lia.
Qed.

Lemma decode_attributes_Ok (word : arch) (info : C.gpio_v2_line_info)
    (l : list GPIOLineAttribute) :
  decode_attributes word info = Ok l ->
  l = decode_entries (firstn (Z.to_nat (int word (C.li_num_attrs info)))
                             (C.li_attrs info)).
Proof.
  rewrite decode_attributes_cases.
  destruct (_ <=? _); [| discriminate]. intros H. injection H as <-.
  reflexivity.
Qed.

(** X4: the attribute loop in every case. With the count read as a Go
    [int], a count within the array gives the decode of that many leading
    entries (none for a count that is zero or negative), and a count
    beyond the array gives the panic for the first index outside it. *)
Theorem X4_attribute_loop_outcome (word : arch) (info : C.gpio_v2_line_info) :
  decode_attributes word info =
  if int word (C.li_num_attrs info) <=? Z.of_nat (List.length (C.li_attrs info))
  then Ok (decode_entries
             (firstn (Z.to_nat (int word (C.li_num_attrs info)))
                     (C.li_attrs info)))
  else Panic (IndexOutOfRange (Z.of_nat (List.length (C.li_attrs info)))
                              (Z.of_nat (List.length (C.li_attrs info)))).
Proof.
  unfold decode_attributes.
  destruct (Z.leb_spec (int word (C.li_num_attrs info))
              (Z.of_nat (List.length (C.li_attrs info)))) as [Hle | Hgt].
  - rewrite attr_loop_in_range by lia. reflexivity.
  - apply attr_loop_past_end; lia.
Qed.

(** X5: a count with bit 31 set is read differently by target. Where [int]
    has 32 bits it is negative, the loop does not run and the line info
    comes back without attributes; where [int] has 64 bits the same
    struct ends in the index panic. *)
Theorem X5_count_sign_wrap (info : C.gpio_v2_line_info) :
  wf_line_info info ->
  2 ^ 31 <= C.li_num_attrs info ->
  decode_attributes Arch32 info = Ok [] /\
  (terminated (C.li_name info) -> terminated (C.li_consumer info) ->
   exists li, decode_line_info Arch32 info = Ok li /\ Attributes li = []) /\
  decode_line_info Arch64 info = Panic (IndexOutOfRange 10 10).
Proof.
  intros (_ & _ & _ & Hn & _ & Hlen & _) Hhigh.
  assert (H32 : decode_attributes Arch32 info = Ok []).
  { rewrite decode_attributes_cases, int_Arch32_high by lia.
    destruct (Z.leb_spec (C.li_num_attrs info - 2 ^ 32)
                (Z.of_nat (List.length (C.li_attrs info)))); [| lia].
    replace (Z.to_nat (C.li_num_attrs info - 2 ^ 32)) with 0%nat by lia.
    reflexivity. }
  split; [exact H32 |]. split.
  - intros Hname Hcons. eexists. split.
    + apply (decode_line_info_terminated Arch32 info [] H32 Hname Hcons).
    + reflexivity.
  - apply decode_line_info_panic.
    rewrite decode_attributes_cases, int_Arch64_uint32 by lia.
    rewrite Hlen. unfold C.GPIO_V2_LINE_NUM_ATTRS_MAX.
    change (2 ^ 31) with 2147483648 in Hhigh.
    destruct (Z.leb_spec (C.li_num_attrs info) (Z.of_nat 10)); [lia |].
    reflexivity.
Qed.

Lemma X5_count_sign_wrap_witness :
  decode_attributes Arch32 (Sample.line_info (2 ^ 31)) = Ok [] /\
  decode_line_info Arch64 (Sample.line_info (2 ^ 31))
  = Panic (IndexOutOfRange 10 10).
Proof.
  pose proof (X5_count_sign_wrap (Sample.line_info (2 ^ 31))
                (sample_line_info_wf (2 ^ 31) ltac:(lia)) ltac:(cbn; lia))
    as [H32 [_ H64]].
  split; [exact H32 | exact H64].
Defined.

(** X6: every decoded attribute reports, by [GetID], the tag of the raw
    entry it was made from: the identifiers of the decoded attributes are
    the known tags among the entries counted, in order. *)
Theorem X6_decoded_ids_are_tags (word : arch) (info : C.gpio_v2_line_info)
    (l : list GPIOLineAttribute) :
  decode_attributes word info = Ok l ->
  map GetID l =
  map C.attr_id
    (filter known_tag
       (firstn (Z.to_nat (int word (C.li_num_attrs info))) (C.li_attrs info))).
Proof.
  intros H. rewrite (decode_attributes_Ok word info l H).
  apply GetID_decode_entries.
Qed.

Lemma X6_decoded_ids_are_tags_witness :
  map GetID [GPIOLineAttributeFlags 12; GPIOLineAttributeDebounce 5] = [1; 3].
Proof.
  exact (X6_decoded_ids_are_tags Arch64 (Sample.line_info 3)
           [GPIOLineAttributeFlags 12; GPIOLineAttributeDebounce 5] eq_refl).
Defined.

(** X7: the loop only produces values of the fields' types: [Flags] and
    [Values] below 2^64 and the debounce period below 2^32, whatever
    bytes the unions hold. *)
Theorem X7_decoded_values_in_range (word : arch) (info : C.gpio_v2_line_info)
    (l : list GPIOLineAttribute) :
  decode_attributes word info = Ok l -> Forall attribute_in_range l.
Proof.
  intros H. rewrite (decode_attributes_Ok word info l H).
  apply decode_entries_in_range.
Qed.

Lemma X7_decoded_values_in_range_witness :
  Forall attribute_in_range
    [GPIOLineAttributeFlags 12; GPIOLineAttributeDebounce 5].
Proof.
  exact (X7_decoded_values_in_range Arch64 (Sample.line_info 3) _ eq_refl).
Defined.

(** X8: what the loop appends for an entry depends on the entry's tag and
    on the union bytes of the member that tag selects only: the padding
    word never matters, and for a debounce entry neither do the union's
    bytes 4 to 7. *)
Theorem X8_decode_reads_selected_member (acc : list GPIOLineAttribute)
    (a a' : C.gpio_v2_line_attribute) :
  C.attr_id a = C.attr_id a' ->
  firstn (if C.attr_id a =? 3 then 4 else 8) (C.attr_union a)
  = firstn (if C.attr_id a =? 3 then 4 else 8) (C.attr_union a') ->
  append_attribute acc a = append_attribute acc a'.
Proof.
  intros Hid Hu.
  unfold append_attribute, C.convert_line_attribute, C.attr_flags,
    C.attr_values, C.attr_debounce_period_us,
    C.GPIO_V2_LINE_ATTR_ID_FLAGS, C.GPIO_V2_LINE_ATTR_ID_OUTPUT_VALUES,
    C.GPIO_V2_LINE_ATTR_ID_DEBOUNCE.
  rewrite <- Hid.
  destruct (Z.eqb_spec (C.attr_id a) 1) as [E1 | _].
  - rewrite E1 in Hu. cbn [Z.eqb Pos.eqb] in Hu. rewrite Hu. reflexivity.
  - destruct (Z.eqb_spec (C.attr_id a) 2) as [E2 | _].
    + rewrite E2 in Hu. cbn [Z.eqb Pos.eqb] in Hu. rewrite Hu. reflexivity.
    + destruct (Z.eqb_spec (C.attr_id a) 3) as [E3 | _]; [| reflexivity].
      cbv iota in Hu. rewrite Hu. reflexivity.
Qed.

Lemma X8_decode_reads_selected_member_witness :
  append_attribute [] (Sample.attribute 3 (2 ^ 40 + 5))
  = append_attribute []
      {| C.attr_id := 3; C.attr_padding := 7; C.attr_union := le_bytes 8 5 |}.
Proof.
  exact (X8_decode_reads_selected_member [] (Sample.attribute 3 (2 ^ 40 + 5))
           {| C.attr_id := 3; C.attr_padding := 7;
              C.attr_union := le_bytes 8 5 |} eq_refl eq_refl).
Defined.

(** ** More on the queries *)

Lemma decode_chip_info_no_error (info : C.gpiochip_info) (e : error) :
  decode_chip_info info <> Err e.
Proof.
  unfold decode_chip_info.
  destruct (C.GoString (C.chip_from_name info)); cbn; [| discriminate].
  destruct (C.GoString (C.chip_from_label info)); cbn; discriminate.
Qed.

(** X9: a query fails exactly when the kernel call returns a value other
    than zero, a positive one included; it then returns that value as
    error number and does not decode the struct, so that no content of
    the struct can turn the failure into a panic. With return value zero
    no error is returned. *)
Theorem X9_query_fails_iff_nonzero (word : arch) (K : kernel) (g : GPIO)
    (line : Z) (tr : list event) :
  ((exists e, fst (GetChipInfo word K g tr) = Err e)
   <-> ret (chip_reply word K g tr) <> 0) /\
  (ret (chip_reply word K g tr) <> 0 ->
   GetChipInfo word K g tr
   = (Err (Errno (uintptr word (ret (chip_reply word K g tr)))),
      tr ++ [EvIoctl (c_fd word g) GPIO_GET_CHIPINFO_IOCTL])) /\
  ((exists e, fst (GetLineInfo word K g line tr) = Err e)
   <-> ret (line_reply word K g line tr) <> 0) /\
  (ret (line_reply word K g line tr) <> 0 ->
   GetLineInfo word K g line tr
   = (Err (Errno (uintptr word (ret (line_reply word K g line tr)))),
      tr ++ [EvIoctl (c_fd word g) GPIO_V2_GET_LINEINFO_IOCTL])).
Proof.
  rewrite GetChipInfo_unfold, GetLineInfo_unfold. cbn [fst].
  destruct (Z.eqb_spec (ret (chip_reply word K g tr)) 0) as [Ec | Ec];
    destruct (Z.eqb_spec (ret (line_reply word K g line tr)) 0) as [El | El];
    cbn [negb]; repeat split;
    try (intros [e He]; exfalso;
         first [apply (decode_chip_info_no_error _ _ He)
               | apply (decode_line_info_no_error _ _ _ He)]);
    try (intros Hne; exfalso; apply Hne; assumption);
    try (intros _; assumption);
    try (intros _; eexists; reflexivity);
    try reflexivity.
Qed.

Lemma C_int_small (d : Z) : 0 <= d < 2 ^ 31 -> C_int d = d.
Proof.
  intros Hd. unfold C_int, to_signed.
  change (2 ^ (32 - 1)) with 2147483648.
  change (2 ^ 32) with 4294967296.
  change (2 ^ 31) with 2147483648 in Hd.
  rewrite Z.mod_small; lia.
Qed.

Lemma open_then {A} (K : kernel) (dev : string) (k : GPIO -> M A)
    (tr : list event) :
  (g <- OpenGPIO K dev ;; k g) tr =
  match k_open K tr dev O_RDWR 0 with
  | inr e => (Err (PathError "open" dev e), tr ++ [EvOpen dev O_RDWR 0])
  | inl d => k {| fd := {| Fd := d |} |} (tr ++ [EvOpen dev O_RDWR 0])
  end.
Proof.
  unfold mbind, OpenGPIO, os_OpenFile.
  destruct (k_open K tr dev O_RDWR 0); reflexivity.
Qed.

(** X10: opening a device and then querying it. When the open fails the
    query is not made: the result is the open's error and the open is the
    only call. When the open gives a descriptor, the calls are the open
    and then one ioctl, on that descriptor whenever it fits C's [int];
    the kernel answers the query knowing of the open. *)
Theorem X10_open_then_query (word : arch) (K : kernel) (dev : string)
    (line : Z) (tr : list event) :
  match k_open K tr dev O_RDWR 0 with
  | inr e =>
      (g <- OpenGPIO K dev ;; GetChipInfo word K g) tr
      = (Err (PathError "open" dev e), tr ++ [EvOpen dev O_RDWR 0]) /\
      (g <- OpenGPIO K dev ;; GetLineInfo word K g line) tr
      = (Err (PathError "open" dev e), tr ++ [EvOpen dev O_RDWR 0])
  | inl d =>
      (g <- OpenGPIO K dev ;; GetChipInfo word K g) tr
      = GetChipInfo word K {| fd := {| Fd := d |} |}
          (tr ++ [EvOpen dev O_RDWR 0]) /\
      snd ((g <- OpenGPIO K dev ;; GetChipInfo word K g) tr)
      = tr ++ [EvOpen dev O_RDWR 0;
               EvIoctl (C_int (int word d)) GPIO_GET_CHIPINFO_IOCTL] /\
      snd ((g <- OpenGPIO K dev ;; GetLineInfo word K g line) tr)
      = tr ++ [EvOpen dev O_RDWR 0;
               EvIoctl (C_int (int word d)) GPIO_V2_GET_LINEINFO_IOCTL] /\
      (0 <= d < 2 ^ 31 -> C_int (int word d) = d)
  end.
Proof.
  rewrite !open_then.
  destruct (k_open K tr dev O_RDWR 0) as [d | e]; [| split; reflexivity].
  split; [reflexivity |]. split; [| split].
  - rewrite GetChipInfo_unfold. cbn [snd]. rewrite <- app_assoc. reflexivity.
  - rewrite GetLineInfo_unfold. cbn [snd]. rewrite <- app_assoc. reflexivity.
  - intros Hd. rewrite int_small by assumption. apply C_int_small. assumption.
Qed.

(** ** More on the decoding of the chip info *)

Lemma until_nul_None (mem : list byte) :
  C.until_nul mem = None <-> ~ In x00 mem.
Proof.
  induction mem as [| b mem IH]; cbn [C.until_nul].
  - split; [intros _ [] | reflexivity].
  - destruct (Byte.eqb b x00) eqn:Eb.
    + apply Byte.byte_dec_bl in Eb. subst b. split; [discriminate |].
      intros H. exfalso. apply H. left. reflexivity.
    + apply Byte.eqb_false in Eb.
      assert (Hom : option_map (cons b) (C.until_nul mem) = None
                    <-> C.until_nul mem = None)
        by (destruct (C.until_nul mem); cbn; split; congruence).
      rewrite Hom, IH. split.
      * intros H [Hb | Hin]; [congruence | exact (H Hin)].
      * intros H Hin. apply H. right. exact Hin.
Qed.

Lemma GoString_None (mem : list byte) :
  C.GoString mem = None <-> ~ In x00 mem.
Proof.
  unfold C.GoString. rewrite <- until_nul_None.
  destruct (C.until_nul mem); cbn; split; congruence.
Qed.

(** X11: the decoding of a chip info never returns an error and never
    panics; it goes wrong in one way only, by reading out of the struct,
    and it does so exactly when no zero byte occurs from the label buffer
    to the end of the struct. *)
Theorem X11_chip_decode_failure (info : C.gpiochip_info) :
  (forall e, decode_chip_info info <> Err e) /\
  (forall p, decode_chip_info info <> Panic p) /\
  (decode_chip_info info = Undefined
   <-> ~ In x00 (C.chip_label info ++ le_bytes 4 (C.chip_lines info))).
Proof.
  split; [intros e; apply decode_chip_info_no_error |].
  unfold decode_chip_info.
  change (C.chip_label info ++ le_bytes 4 (C.chip_lines info))
    with (C.chip_from_label info).
  pose proof (GoString_None (C.chip_from_name info)) as Hn.
  pose proof (GoString_None (C.chip_from_label info)) as Hl.
  unfold C.chip_from_name in Hn at 2.
  destruct (C.GoString (C.chip_from_name info)) as [name |]; cbn [defined obind].
  - destruct (C.GoString (C.chip_from_label info)) as [label |];
      cbn [defined obind].
    + split; [discriminate |].
      split; [discriminate | intros H; apply Hl in H; discriminate].
    + split; [discriminate |].
      split; [intros _; apply Hl; reflexivity | intros _; reflexivity].
  - split; [discriminate |]. split; [| intros _; reflexivity].
    intros _ Hin. apply (proj1 Hn eq_refl). apply in_or_app. right. exact Hin.
Qed.

Lemma le_bytes_top_zero (v : Z) :
  0 <= v < 2 ^ 24 -> In x00 (le_bytes 4 v).
Proof.
  intros Hv. cbn [le_bytes]. right. right. right. left.
  rewrite !Z.div_div by lia. rewrite Z.div_small by (cbn; lia).
  reflexivity.
Qed.

(** X12: a chip that reports fewer than 2^24 lines always decodes,
    terminated text buffers or not: the top byte of the line count, the
    last byte of the struct, is zero and stops every scan. *)
Theorem X12_chip_decode_small_count (info : C.gpiochip_info) :
  0 <= C.chip_lines info < 2 ^ 24 ->
  exists ci, decode_chip_info info = Ok ci /\ Lines ci = C.chip_lines info.
Proof.
  intros Hv.
  assert (Hl : In x00 (C.chip_from_label info)).
  { unfold C.chip_from_label, C.chip_after_label. apply in_or_app. right.
    apply le_bytes_top_zero. exact Hv. }
  assert (Hn : In x00 (C.chip_from_name info)).
  { unfold C.chip_from_name. apply in_or_app. right. exact Hl. }
  unfold decode_chip_info.
  destruct (C.GoString (C.chip_from_name info)) as [name |] eqn:En.
  - destruct (C.GoString (C.chip_from_label info)) as [label |] eqn:El.
    + eexists. split; [reflexivity |]. cbn [Lines].
      apply uint32_small. change (2 ^ 24) with 16777216 in Hv.
      change (2 ^ 32) with 4294967296. lia.
    + exfalso. apply GoString_None in El. apply El. exact Hl.
  - exfalso. apply GoString_None in En. apply En. exact Hn.
Qed.

Lemma X12_chip_decode_small_count_witness :
  exists ci, decode_chip_info Sample.unterminated_chip_info = Ok ci /\
             Lines ci = 54.
Proof.
  apply (X12_chip_decode_small_count Sample.unterminated_chip_info).
  cbn. lia.
Defined.

(** X13: a name buffer with no zero byte runs into the label: when the
    label buffer holds a zero byte, the decoded name is the whole name
    buffer followed by the decoded label. *)
Theorem X13_full_name_runs_into_label (info : C.gpiochip_info) :
  ~ terminated (C.chip_name info) ->
  terminated (C.chip_label info) ->
  decode_chip_info info =
  Ok {| Name := (string_of_list_byte (C.chip_name info)
                 ++ fixed_buffer_to_text (C.chip_label info))%string;
        Label := fixed_buffer_to_text (C.chip_label info);
        Lines := uint32 (C.chip_lines info) |}.
Proof.
  intros Hn Hl. unfold decode_chip_info, C.chip_from_name.
  rewrite GoString_unterminated by assumption.
  unfold C.chip_from_label. rewrite GoString_terminated by assumption.
  reflexivity.
Qed.

Lemma X13_full_name_runs_into_label_witness :
  decode_chip_info Sample.unterminated_chip_info =
  Ok {| Name := "aaaaaaaaaaaaaaaaaaaaaaaaaaaaaaaab"; Label := "b"; Lines := 54 |}.
Proof.
  refine (X13_full_name_runs_into_label Sample.unterminated_chip_info _ _).
  - unfold terminated. cbn. intros H.
    repeat (destruct H as [H | H]; [discriminate |]). exact H.
  - unfold terminated. cbn. tauto.
Defined.

(** ** Rendering of attributes *)

Lemma append_inj_l (p s1 s2 : string) :
  (p ++ s1)%string = (p ++ s2)%string -> s1 = s2.
Proof.
  induction p as [| c p IH]; cbn; intros H; [exact H |].
  injection H as H. apply IH. exact H.
Qed.

Lemma fmt_hex_inj (v1 v2 : Z) :
  0 <= v1 -> 0 <= v2 -> fmt_hex v1 = fmt_hex v2 -> v1 = v2.
Proof.
  intros H1 H2 H. unfold fmt_hex in H.
  assert (Hnn : forall n, N.to_hex_uint n <> Hexadecimal.Nil).
  { intros [| p]; [discriminate |]. apply HexadecimalPos.Unsigned.to_uint_nonnil. }
  apply (f_equal HexadecimalString.NilZero.uint_of_string) in H.
  rewrite !HexadecimalString.NilZero.usu in H by apply Hnn.
  injection H as H. apply HexadecimalN.Unsigned.to_uint_inj in H. lia.
Qed.

Lemma fmt_dec_inj (v1 v2 : Z) :
  0 <= v1 -> 0 <= v2 -> fmt_dec v1 = fmt_dec v2 -> v1 = v2.
Proof.
  intros H1 H2 H. unfold fmt_dec in H.
  assert (Hnn : forall n, N.to_uint n <> Decimal.Nil).
  { intros [| p]; [discriminate |]. apply DecimalPos.Unsigned.to_uint_nonnil. }
  apply (f_equal DecimalString.NilZero.uint_of_string) in H.
  rewrite !DecimalString.NilZero.usu in H by apply Hnn.
  injection H as H. apply DecimalN.Unsigned.to_uint_inj in H. lia.
Qed.

(** X14: the attribute renderings tell attributes apart: two attributes
    with values of their field types that render alike are the same
    variant with the same value. *)
Theorem X14_attribute_rendering_injective (a b : GPIOLineAttribute) :
  attribute_in_range a -> attribute_in_range b ->
  GPIOLineAttribute_String a = GPIOLineAttribute_String b -> a = b.
Proof.
  intros Ha Hb H.
  destruct a as [x | x | x], b as [y | y | y]; cbn in Ha, Hb;
    cbn [GPIOLineAttribute_String] in H;
    try (cbn in H; discriminate);
    f_equal; apply append_inj_l in H;
    first [ apply fmt_hex_inj; (lia || exact H)
          | apply fmt_dec_inj; (lia || exact H) ].
Qed.

Lemma X14_attribute_rendering_injective_witness :
  GPIOLineAttribute_String (GPIOLineAttributeFlags 12) = "flags=0xc" /\
  GPIOLineAttributeFlags 12 = GPIOLineAttributeFlags 12.
Proof.
  split; [reflexivity |].
  apply X14_attribute_rendering_injective; cbn; try lia. reflexivity.
Defined.

(** ** The decoding of a line info, by outcome *)

(** X15: the ways the decoding of a line info ends. It never returns an
    error. It panics exactly when the count, read as a Go [int], exceeds
    the array, whatever the text buffers hold, since the loop runs before
    the texts are read. It reads out of the struct exactly when the count
    is within the array and no zero byte occurs from the consumer buffer
    to the end of the struct. *)
Theorem X15_line_decode_outcomes (word : arch) (info : C.gpio_v2_line_info) :
  (forall e, decode_line_info word info <> Err e) /\
  (forall p, decode_line_info word info = Panic p <->
             Z.of_nat (List.length (C.li_attrs info))
             < int word (C.li_num_attrs info) /\
             p = IndexOutOfRange (Z.of_nat (List.length (C.li_attrs info)))
                                 (Z.of_nat (List.length (C.li_attrs info)))) /\
  (decode_line_info word info = Undefined <->
   int word (C.li_num_attrs info) <= Z.of_nat (List.length (C.li_attrs info)) /\
   ~ In x00 (C.line_from_consumer info)).
Proof.
  split; [intros e; apply decode_line_info_no_error |].
  unfold decode_line_info. rewrite decode_attributes_cases.
  pose proof (GoString_None (C.line_from_name info)) as Hn.
  pose proof (GoString_None (C.line_from_consumer info)) as Hc.
  unfold C.line_from_name in Hn at 2.
  destruct (Z.leb_spec (int word (C.li_num_attrs info))
              (Z.of_nat (List.length (C.li_attrs info)))) as [Hle | Hgt];
    cbn [obind].
  - destruct (C.GoString (C.line_from_name info)) as [name |];
      cbn [defined obind].
    + destruct (C.GoString (C.line_from_consumer info)) as [consumer |];
        cbn [defined obind].
      * split.
        -- intros p. split; [discriminate | intros [H _]; lia].
        -- split; [discriminate |]. intros [_ H]. apply Hc in H. discriminate.
      * split.
        -- intros p. split; [discriminate | intros [H _]; lia].
        -- split; [| intros _; reflexivity].
           intros _. split; [exact Hle | apply Hc; reflexivity].
    + split.
      * intros p. split; [discriminate | intros [H _]; lia].
      * split; [| intros _; reflexivity].
        intros _. split; [exact Hle |]. intros Hin.
        apply (proj1 Hn eq_refl). apply in_or_app. right. exact Hin.
  - split.
    + intros p. split.
      * intros H. injection H as <-. split; [exact Hgt | reflexivity].
      * intros [_ ->]. reflexivity.
    + split; [discriminate | intros [H _]; lia].
Qed.

(** ** Listing the devices *)

Lemma substring_prefix (p rest : string) :
  substring 0 (String.length p) (p ++ rest) = p.
Proof.
  induction p as [| c p IH]; cbn.
  - destruct rest; reflexivity.
  - rewrite IH. reflexivity.
Qed.

Lemma length_append (a b : string) :
  String.length (a ++ b) = (String.length a + String.length b)%nat.
Proof.
  induction a as [| c a IH]; cbn; [| rewrite IH]; reflexivity.
Qed.

Lemma substring_is_prefix (p : string) :
  forall s, substring 0 (String.length p) s = p ->
            exists rest, s = (p ++ rest)%string.
Proof.
  induction p as [| c p IH]; intros s H.
  - exists s. reflexivity.
  - destruct s as [| c' s]; [discriminate |]. cbn in H.
    injection H as -> H. destruct (IH s H) as [rest ->].
    exists rest. reflexivity.
Qed.

(** [strings.HasPrefix] holds of the strings that begin with the prefix. *)
Lemma strings_HasPrefix_spec (s p : string) :
  strings_HasPrefix s p = true <-> exists rest, s = (p ++ rest)%string.
Proof.
  unfold strings_HasPrefix. split.
  - intros H. apply andb_true_iff in H as [_ H].
    apply String.eqb_eq in H. apply substring_is_prefix. exact H.
  - intros [rest ->]. apply andb_true_iff. split.
    + apply Nat.leb_le. rewrite length_append. lia.
    + apply String.eqb_eq. apply substring_prefix.
Qed.

(** The loop of [ListGPIODevices] as a filter. *)
Lemma ListGPIODevices_filter (rd : string -> list string * option error)
    (entries : list string) :
  rd "/dev" = (entries, None) ->
  ListGPIODevices rd =
  Ok (map (String.append "/dev/")
        (filter (fun e => strings_HasPrefix e "gpiochip") entries)).
Proof.
  intros H. unfold ListGPIODevices. rewrite H. f_equal.
  rewrite (fold_append_filter (fun e => strings_HasPrefix e "gpiochip")
             (String.append "/dev/")).
  reflexivity.
Qed.

(** X16: when the directory is read without error, the paths listed are
    exactly the entries whose name begins with [gpiochip], whatever
    follows that prefix (nothing, digits or other characters), each with
    [/dev/] put before its name. When reading the directory gives an
    error, that error is returned and no path is, even if entries were
    read. *)
Theorem X16_listed_paths (rd : string -> list string * option error) :
  match rd "/dev" with
  | (entries, None) =>
      exists paths,
        ListGPIODevices rd = Ok paths /\
        forall p, In p paths <->
                  exists rest, In ("gpiochip" ++ rest)%string entries /\
                               p = ("/dev/gpiochip" ++ rest)%string
  | (_, Some e) => ListGPIODevices rd = Err e
  end.
Proof.
  destruct (rd "/dev") as [entries [e |]] eqn:E.
  - unfold ListGPIODevices. rewrite E. reflexivity.
  - eexists. split; [apply (ListGPIODevices_filter rd entries E) |].
    intros p. rewrite in_map_iff. split.
    + intros [x [<- Hx]]. apply filter_In in Hx as [Hin Hpre].
      apply strings_HasPrefix_spec in Hpre as [rest ->].
      exists rest. split; [exact Hin | reflexivity].
    + intros [rest [Hin ->]]. exists ("gpiochip" ++ rest)%string.
      split; [reflexivity |]. apply filter_In. split; [exact Hin |].
      apply strings_HasPrefix_spec. exists rest. reflexivity.
Qed.

Lemma strings_HasPrefix_prefix (s p : string) :
  strings_HasPrefix s p = String.prefix p s.
Proof.
  apply eq_true_iff_eq. rewrite strings_HasPrefix_spec.
  rewrite String.prefix_correct. split.
  - intros [rest ->]. apply substring_prefix.
  - apply substring_is_prefix.
Qed.

Lemma NoDup_map_append (p : string) (l : list string) :
  NoDup l -> NoDup (map (String.append p) l).
Proof.
  induction 1 as [| x l Hx Hl IH]; cbn; constructor; [| exact IH].
  intros Hin. apply in_map_iff in Hin as [y [Hy Hin]].
  apply append_inj_l in Hy. subst y. exact (Hx Hin).
Qed.

(** X17: the listing keeps the directory's order and invents nothing: the
    paths are the entries that begin with [gpiochip], in the order read,
    each after [/dev/]; they are no more than the entries, and entries
    that are all different give paths that are all different. *)
Theorem X17_listing_keeps_order (rd : string -> list string * option error)
    (entries : list string) :
  rd "/dev" = (entries, None) ->
  exists paths,
    ListGPIODevices rd = Ok paths /\
    paths = map (String.append "/dev/")
              (filter (String.prefix "gpiochip") entries) /\
    (List.length paths <= List.length entries)%nat /\
    (NoDup entries -> NoDup paths).
Proof.
  intros H. eexists. split; [apply (ListGPIODevices_filter rd entries H) |].
  assert (Hf : filter (fun e => strings_HasPrefix e "gpiochip") entries
               = filter (String.prefix "gpiochip") entries).
  { apply filter_ext. intros e. apply strings_HasPrefix_prefix. }
  rewrite Hf. split; [reflexivity |]. split.
  - rewrite length_map. apply filter_length_le.
  - intros Hnd. apply NoDup_map_append. apply NoDup_filter. exact Hnd.
Qed.

Lemma X17_listing_keeps_order_witness :
  exists paths,
    ListGPIODevices
      (fun _ => (["gpiochip1"; "null"; "gpiochip0"; "gpiochip"], None))
    = Ok paths /\
    paths = ["/dev/gpiochip1"; "/dev/gpiochip0"; "/dev/gpiochip"] /\
    (List.length paths <= 4)%nat /\
    (NoDup ["gpiochip1"; "null"; "gpiochip0"; "gpiochip"] -> NoDup paths).
Proof.
  exact (X17_listing_keeps_order
           (fun _ => (["gpiochip1"; "null"; "gpiochip0"; "gpiochip"], None))
           ["gpiochip1"; "null"; "gpiochip0"; "gpiochip"] eq_refl).
Defined.
